(** * ABC-XYZ classification and stock policy

    A model of [project/abcxyz_main.py].  Python floats are idealised as
    real numbers; a missing value (pandas [NaN], [NaT] or [None]) is [None]
    in an [option].  Infinities do not arise in exact arithmetic and are
    not modelled.  Strings are sequences of code points below 256. *)

From Stdlib Require Import Reals Lra Lia Ascii.
From Stdlib Require OrderedTypeEx.
From stdpp Require Import base option list sorting strings gmap.

Open Scope R_scope.

(** ** Module-level parameters (lines 26-36) *)

Definition ABC_CUTS : R * R := (0.80, 0.95).
Definition XYZ_CUTS : R * R := (0.50, 1.00).

Definition Z_BY_ABC : gmap string R :=
  {[ "A" := 1.96; "B" := 1.65; "C" := 1.28 ]}.
Definition Z_BY_XYZ : gmap string R :=
  {[ "X" := 1.65; "Y" := 1.44; "Z" := 1.28 ]}.
Definition Z_DEFAULT : R := 1.65.
Definition LT_DEFAULT : R := 15.
Definition ORDER_COST : R := 15000.
Definition HOLDING_RATE : R := 0.25.
Definition USE_EOQ : bool := true.

(** ** Numeric helpers *)

#[global] Instance Rlt_decision : RelDecision Rlt := Rlt_dec.
#[global] Instance Rle_decision : RelDecision Rle := Rle_dec.
#[global] Instance Req_decision : EqDecision R := Req_dec_T.

(** Python's [x or 0] on a number: a falsy [x] (zero) is replaced by [0]. *)
Definition or0 (x : R) : R := if decide (x = 0) then 0 else x.

(** Python's two-argument [max(a, b)]: [b] when [b > a], else [a]. *)
Definition py_max (a b : R) : R := if decide (a < b) then b else a.

(** [Series.fillna(d)]. *)
Definition fillna (d : R) (x : option R) : R := default d x.

(** [Series.clip(lower=lo)]. *)
Definition clip_lower (lo x : R) : R := if decide (x < lo) then lo else x.

(** [np.sqrt]: [NaN] on a negative argument. *)
Definition np_sqrt (x : R) : option R :=
  if decide (x < 0) then None else Some (sqrt x).

(** [Series.sum()]. *)
Definition Rsum (l : list R) : R := foldr Rplus 0 l.

(** [Series.cumsum()]. *)
Fixpoint cumsum_from (acc : R) (l : list R) : list R :=
  match l with
  | [] => []
  | x :: l' => (acc + x) :: cumsum_from (acc + x) l'
  end.
Definition cumsum (l : list R) : list R := cumsum_from 0 l.

(** [astype(str)] on a nullable label column. *)
Definition astype_str (x : option string) : string := default "nan" x.

(** ** Generic table operations *)

(** [Series.unique()]: distinct values in order of first appearance. *)
Fixpoint unique `{EqDecision A} (l : list A) : list A :=
  match l with
  | [] => []
  | x :: l' => x :: filter (λ y, y ≠ x) (unique l')
  end.

(** A stable insertion sort; [before y x] holds when [y] has to come
    strictly before [x].  Elements that tie keep their input order. *)
Section stable_sort.
Context {A : Type} (before : A → A → bool).

Fixpoint insert_sorted (x : A) (l : list A) : list A :=
  match l with
  | [] => [x]
  | y :: l' => if before y x then y :: insert_sorted x l' else x :: y :: l'
  end.

Definition stable_sort (l : list A) : list A := foldr insert_sorted [] l.
End stable_sort.

(** [np.searchsorted(bins, x, side="left")] on ascending [bins]. *)
Fixpoint searchsorted_left (bins : list R) (x : R) : nat :=
  match bins with
  | [] => 0%nat
  | b :: bins' => if decide (b < x) then S (searchsorted_left bins' x) else 0%nat
  end.

(** [pd.cut(x, bins, labels, right=True, include_lowest=True)]: the label of
    the right-closed bin holding [x], the first bin also holding its left
    edge, and [NaN] outside the bins. *)
Definition cut (bins : list R) (labels : list string) (x : R) : option string :=
  let i := searchsorted_left bins x in
  let i := if decide (Some x = head bins) then 1%nat else i in
  if decide (i = 0%nat ∨ i = length bins) then None else labels !! (i - 1)%nat.

(** ** Utilities (lines 46-58) *)

Definition eoq (D S H C : R) : R :=
  let D := or0 D in
  let S := or0 S in
  let H := or0 H in
  let C := or0 C in
  if decide (D <= 0 ∨ S <= 0 ∨ H * C <= 0) then 0
  else sqrt ((2 * D * S) / (H * C)).

Definition pick_z (a x : string) : R :=
  let z := Z_DEFAULT in
  let z := match Z_BY_ABC !! a with Some v => v | None => z end in
  let z := match Z_BY_XYZ !! x with Some v => py_max z v | None => z end in
  z.

(** ** Input tables *)

Record date := { year : Z; month : Z; day : Z }.

(** A row of [issues_df]: columns [itemcode], [qty], [date]. *)
Record move := { itemcode : string; qty : R; mdate : date }.

(** An untyped spreadsheet cell.  Text that parses as a number is
    represented by [CNum]. *)
Inductive cell := CNaN | CNum (x : R) | CText (s : string).

(** [pd.to_numeric(_, errors="coerce")]. *)
Definition to_numeric (c : cell) : option R :=
  match c with CNum x => Some x | _ => None end.

(** A row of [prices_df]: columns [itemcode], [itemname], [avgprice]. *)
Record price := { p_itemcode : string; p_itemname : option string; p_avgprice : cell }.

(** ** ABC by value (lines 227-249) *)

Record price_row := { pr_itemcode : string; pr_itemname : option string; pr_avgprice : R }.

Definition coerce_price (c : cell) : R := clip_lower 0 (fillna 1 (to_numeric c)).

Definition default_prices (issues : list move) : list price :=
  (λ c, {| p_itemcode := c; p_itemname := Some ""; p_avgprice := CNum 1 |})
    <$> unique (itemcode <$> issues).

Definition prepare_prices (prices : list price) (issues : list move) : list price_row :=
  let prices := match prices with [] => default_prices issues | _ => prices end in
  (λ p, {| pr_itemcode := p_itemcode p; pr_itemname := p_itemname p;
           pr_avgprice := coerce_price (p_avgprice p) |}) <$> prices.

Record cons_row := {
  c_itemcode : string; c_qty : R; c_date : date;
  c_itemname : option string; c_avgprice : R; c_valor : R }.

Definition matching (prices : list price_row) (c : string) : list price_row :=
  filter (λ p, pr_itemcode p = c) prices.

Definition join_row (m : move) (p : option price_row) : cons_row :=
  let avgprice := fillna 1 (pr_avgprice <$> p) in
  {| c_itemcode := itemcode m; c_qty := qty m; c_date := mdate m;
     c_itemname := p ≫= pr_itemname; c_avgprice := avgprice;
     c_valor := qty m * avgprice |}.

(** [issues_df.merge(prices_df, on="itemcode", how="left")] followed by the
    [fillna] of the price and the [valor] column. *)
Definition merge_left (issues : list move) (prices : list price_row) : list cons_row :=
  m ← issues;
  match matching prices (itemcode m) with
  | [] => [join_row m None]
  | ps => (λ p, join_row m (Some p)) <$> ps
  end.

Record agg_row := {
  a_itemcode : string; a_itemname : option string; a_valor : R; a_unidades : R }.

(** Group keys of [groupby]: the distinct keys in ascending order. *)
Definition group_keys (codes : list string) : list string :=
  stable_sort String.ltb (unique codes).

Definition groupby_agg (cons : list cons_row) : list agg_row :=
  (λ k, let g := filter (λ r, c_itemcode r = k) cons in
        {| a_itemcode := k; a_itemname := head (omap c_itemname g);
           a_valor := Rsum (c_valor <$> g); a_unidades := Rsum (c_qty <$> g) |})
    <$> group_keys (c_itemcode <$> cons).

(** [sort_values("valor", ascending=False)]. *)
Definition sort_by_valor_desc (agg : list agg_row) : list agg_row :=
  stable_sort (λ y x, bool_decide (a_valor x < a_valor y)) agg.

Definition pct_column (valor : list R) : list R :=
  let total_valor := Rsum valor in
  if decide (0 < total_valor) then (λ c, c / total_valor) <$> cumsum valor
  else (λ _, 0) <$> valor.

Definition abc_of_pct (pct : R) : string :=
  let '(cutA, cutB) := ABC_CUTS in
  astype_str (cut [0; cutA; cutB; 1] ["A"; "B"; "C"] pct).

Record abc_row := { ab_agg : agg_row; ab_pct : R; ab_ABC : string }.

Definition aggregate (prices : list price) (issues : list move) : list agg_row :=
  sort_by_valor_desc (groupby_agg (merge_left issues (prepare_prices prices issues))).

Definition abc_table (prices : list price) (issues : list move) : list abc_row :=
  let agg := aggregate prices issues in
  zip_with (λ r p, {| ab_agg := r; ab_pct := p; ab_ABC := abc_of_pct p |})
           agg (pct_column (a_valor <$> agg)).

(** ** Monthly demand and XYZ by coefficient of variation (lines 251-261) *)

(** The calendar month of a date, counted from year 0; [resample("ME")]
    buckets by it. *)
Definition month_index (d : date) : Z := (year d * 12 + (month d - 1))%Z.

(** The bins of [resample("ME")]: every month from the first to the last
    one present, whether or not it holds a record. *)
Definition month_span (ms : list Z) : list Z :=
  match ms with
  | [] => []
  | m :: _ =>
      let lo := foldr Z.min m ms in
      let hi := foldr Z.max m ms in
      seqZ lo (hi - lo + 1)
  end.

Definition month_total (g : list move) (b : Z) : R :=
  Rsum (qty <$> filter (λ m, month_index (mdate m) = b) g).

(** [resample("ME").sum()] on the records of one SKU. *)
Definition resample_sum (g : list move) : list (Z * R) :=
  (λ b, (b, month_total g b)) <$> month_span ((λ m, month_index (mdate m)) <$> g).

(** [groupby("itemcode")["qty"].resample("ME").sum()]. *)
Definition monthly_by_sku (issues : list move) : list (string * list (Z * R)) :=
  (λ k, (k, resample_sum (filter (λ m, itemcode m = k) issues)))
    <$> group_keys (itemcode <$> issues).

(** A pivoted table: one row per SKU, one column per month. *)
Record pivot := { pv_columns : list Z; pv_rows : list (string * list R) }.

(** [unstack(fill_value=0)]. *)
Definition unstack_fill0 (s : list (string * list (Z * R))) : pivot :=
  let cols := stable_sort Z.ltb (unique (s ≫= λ kv, fst <$> kv.2)) in
  {| pv_columns := cols;
     pv_rows := (λ kv, (kv.1, (λ b, default 0 ((list_to_map kv.2 : gmap Z R) !! b)) <$> cols))
                  <$> s |}.

Definition mens (issues : list move) : pivot := unstack_fill0 (monthly_by_sku issues).

(** [mean(axis=1)]: [NaN] on an empty row. *)
Definition mean (l : list R) : option R :=
  match l with
  | [] => None
  | _ => Some (Rsum l / INR (length l))
  end.

(** [std(axis=1, ddof=1)]: [NaN] with fewer than two values. *)
Definition std (l : list R) : option R :=
  if decide (length l < 2)%nat then None
  else
    let m := Rsum l / INR (length l) in
    Some (sqrt (Rsum ((λ x, (x - m) * (x - m)) <$> l) / (INR (length l) - 1))).

(** [replace(0, np.nan)]. *)
Definition replace_zero_nan (x : option R) : option R :=
  v ← x; if decide (v = 0) then None else Some v.

(** [std/mean]; the later [replace] of infinities changes no real number. *)
Definition cv_of (series : list R) : option R :=
  let mean := replace_zero_nan (mean series) in
  let std := std series in
  s ← std; m ← mean; Some (s / m).

(** A comparison with [NaN] is false. *)
Definition nan_le (x : option R) (c : R) : bool :=
  match x with Some v => bool_decide (v <= c) | None => false end.
Definition nan_gt (x : option R) (c : R) : bool :=
  match x with Some v => bool_decide (c < v) | None => false end.
Definition notna {A} (x : option A) : bool :=
  match x with Some _ => true | None => false end.

Definition xyz_of_cv (cv : option R) : string :=
  let xyz := "Z" in
  let xyz := if notna cv && nan_le cv XYZ_CUTS.1 then "X" else xyz in
  let xyz := if notna cv && nan_gt cv XYZ_CUTS.1 && nan_le cv XYZ_CUTS.2 then "Y" else xyz in
  xyz.

(** ** Supplier resolution (lines 281-301) *)

(** [\w] of Python's [re] on code points below 256. *)
Definition is_word_char (c : ascii) : bool :=
  let n := nat_of_ascii c in
  ((48 <=? n) && (n <=? 57) || (65 <=? n) && (n <=? 90) || (n =? 95)
   || (97 <=? n) && (n <=? 122)
   || (n =? 170) || (n =? 178) || (n =? 179) || (n =? 181) || (n =? 185) || (n =? 186)
   || (188 <=? n) && (n <=? 190) || (192 <=? n) && (n <=? 214)
   || (216 <=? n) && (n <=? 246) || (248 <=? n))%nat.

(** Case folding of [re.IGNORECASE] as far as a pattern of ASCII letters
    can tell. *)
Definition lower_char (c : ascii) : ascii :=
  let n := nat_of_ascii c in
  if ((65 <=? n) && (n <=? 90))%nat then ascii_of_nat (n + 32) else c.

Definition head_char (s : string) : option ascii :=
  match s with EmptyString => None | String c _ => Some c end.

Definition is_word (c : option ascii) : bool := from_option is_word_char false c.

(** [\b]: exactly one of the two neighbours is a word character. *)
Definition word_boundary (prev next : option ascii) : bool :=
  xorb (is_word prev) (is_word next).

(** Match the lower-case literal [lit] at the head of [s], ignoring case;
    returns the last character read and the rest. *)
Fixpoint match_literal (lit s : string) (last : option ascii)
  : option (option ascii * string) :=
  match lit with
  | EmptyString => Some (last, s)
  | String p lit' =>
      match s with
      | EmptyString => None
      | String c s' =>
          if Ascii.eqb (lower_char c) p then match_literal lit' s' (Some c) else None
      end
  end.

Definition match_word_at (lit : string) (prev : option ascii) (s : string) : bool :=
  word_boundary prev (head_char s) &&
  match match_literal lit s prev with
  | Some (last, rest) => word_boundary last (head_char rest)
  | None => false
  end.

(** [re.search] of the pattern [\b lit \b] with [re.IGNORECASE]. *)
Fixpoint search_word (lit : string) (prev : option ascii) (s : string) : bool :=
  match_word_at lit prev s ||
  match s with
  | EmptyString => false
  | String c s' => search_word lit (Some c) s'
  end.

Definition name_contains_heli (item_name : option string) : bool :=
  search_word "heli" None (astype_str item_name).

Definition resolve_supplier (heli_set tvh_set : gset string)
    (code : string) (item_name : option string) : string :=
  let supplier := "NACIONAL" in
  let supplier := if bool_decide (code ∈ tvh_set) then "TVH" else supplier in
  let supplier :=
    if bool_decide (code ∈ heli_set) || name_contains_heli item_name
    then "HELI" else supplier in
  supplier.

Definition lt_map_default : gmap string R :=
  {[ "HELI" := 90; "TVH" := 45; "NACIONAL" := 3 ]}.

(** Lead time by supplier.  [lt_map_cfg] is the normalised
    [policy.lead_time_by_supplier] dictionary of [config.yaml] when the
    file gives one. *)
Definition resolve_lead_time (lt_map_cfg : option (gmap string Z)) (supplier : string) : R :=
  match lt_map_cfg with
  | Some m =>
      if decide (m = ∅) then fillna LT_DEFAULT (lt_map_default !! supplier)
      else fillna LT_DEFAULT (IZR <$> m !! supplier)
  | None => fillna LT_DEFAULT (lt_map_default !! supplier)
  end.

(** ** Errors *)

Inductive error :=
  | ValueError (msg : string)
  | KeyError (msg : string)
  | SystemExit (msg : string).

Inductive result (A : Type) :=
  | Ok (a : A)
  | Err (e : error).
Arguments Ok {A} a.
Arguments Err {A} e.

#[global] Instance result_ret : MRet result := λ A a, Ok a.
#[global] Instance result_bind : MBind result :=
  λ A B f m, match m with Ok a => f a | Err e => Err e end.
#[global] Instance result_fmap : FMap result :=
  λ A B f m, match m with Ok a => Ok (f a) | Err e => Err e end.

(** ** The master table and the policy (lines 263-320) *)

Record master_row := {
  item_code : string;
  item_name : option string;
  monthly_mean : option R;
  monthly_std : option R;
  annual_qty : R;
  ABC : option string;
  XYZ : string;
  unit_cost : R;
  ACV : R;
  z_level : R;
  lead_time_days : R;
  supplier : string;
  SS : option R;
  ROP : option R;
  EOQ : R;
  SMIN : option R;
  SMAX : option R;
  OnHand : R;
  BelowROP : bool }.

(** [s.set_index("itemcode")[col].reindex(index)] on a table whose codes
    are distinct: the row of each code, [NaN] where there is none. *)
Definition agg_lookup (tbl : list abc_row) (k : string) : option abc_row :=
  head (filter (λ r, a_itemcode (ab_agg r) = k) tbl).

(** [prices_df.set_index("itemcode")["avgprice"].reindex(index)]: pandas
    refuses to reindex an axis with duplicate labels. *)
Definition reindex_prices (prices : list price_row) : result (string → option R) :=
  if decide (NoDup (pr_itemcode <$> prices))
  then Ok (λ k, pr_avgprice <$> head (matching prices k))
  else Err (ValueError "cannot reindex on an axis with duplicate labels").

(** A label that is [NaN] is a key of neither z table, like the text [nan]. *)
Definition label_key (a : option string) : string := default "nan" a.

Definition master_of (tbl : list abc_row) (avgprice_of : string → option R)
    (heli_set tvh_set : gset string) (lt_map_cfg : option (gmap string Z))
    (kv : string * list R) : master_row :=
  let code := kv.1 in
  let series := kv.2 in
  let item_name := agg_lookup tbl code ≫= λ r, a_itemname (ab_agg r) in
  let monthly_mean := mean series in
  let monthly_std := std series in
  let annual_qty := Rsum series in
  let ABC := ab_ABC <$> agg_lookup tbl code in
  let XYZ := xyz_of_cv (cv_of series) in
  let unit_cost := fillna 1 (avgprice_of code) in
  let ACV := annual_qty * unit_cost in
  let daily_mean := (λ m, m / 30) <$> monthly_mean in
  let daily_std := (λ s, s / 30) <$> monthly_std in
  let supplier := resolve_supplier heli_set tvh_set code item_name in
  let lead_time := resolve_lead_time lt_map_cfg supplier in
  let z_level := pick_z (label_key ABC) XYZ in
  let SS := (λ s, z_level * s * fillna 0 daily_std) <$> np_sqrt lead_time in
  let ROP := (λ ss, fillna 0 daily_mean * lead_time + ss) <$> SS in
  let EOQ := if USE_EOQ then eoq annual_qty ORDER_COST HOLDING_RATE unit_cost else 0 in
  let SMIN := ROP in
  let SMAX := (λ rop, rop + EOQ) <$> ROP in
  let OnHand := 0 in
  {| item_code := code; item_name := item_name; monthly_mean := monthly_mean;
     monthly_std := monthly_std; annual_qty := annual_qty; ABC := ABC; XYZ := XYZ;
     unit_cost := unit_cost; ACV := ACV; z_level := z_level;
     lead_time_days := lead_time; supplier := supplier; SS := SS; ROP := ROP;
     EOQ := EOQ; SMIN := SMIN; SMAX := SMAX; OnHand := OnHand;
     BelowROP := nan_gt ROP OnHand |}.

(** The frame [master] as it stands at line 320. *)
Definition master_table (prices : list price) (issues : list move)
    (heli_set tvh_set : option (gset string)) (lt_map_cfg : option (gmap string Z))
  : result (list master_row) :=
  let tbl := abc_table prices issues in
  avgprice_of ← reindex_prices (prepare_prices prices issues);
  let heli_set := default ∅ heli_set in
  let tvh_set := default ∅ tvh_set in
  mret (master_of tbl avgprice_of heli_set tvh_set lt_map_cfg <$> pv_rows (mens issues)).

(** ** Output tables (lines 326-331) *)

Inductive value :=
  | VText (s : option string)
  | VNum (x : option R)
  | VBool (b : bool).

(** A row of [master.reset_index()] as a record of named values. *)
Definition master_record (r : master_row) : list (string * value) :=
  [ ("item_code", VText (Some (item_code r)));
    ("item_name", VText (item_name r));
    ("monthly_mean", VNum (monthly_mean r));
    ("monthly_std", VNum (monthly_std r));
    ("annual_qty", VNum (Some (annual_qty r)));
    ("ABC", VText (ABC r));
    ("XYZ", VText (Some (XYZ r)));
    ("unit_cost", VNum (Some (unit_cost r)));
    ("ACV", VNum (Some (ACV r)));
    ("z_level", VNum (Some (z_level r)));
    ("lead_time_days", VNum (Some (lead_time_days r)));
    ("supplier", VText (Some (supplier r)));
    ("SS", VNum (SS r));
    ("ROP", VNum (ROP r));
    ("EOQ", VNum (Some (EOQ r)));
    ("SMIN", VNum (SMIN r));
    ("SMAX", VNum (SMAX r));
    ("OnHand", VNum (Some (OnHand r)));
    ("BelowROP", VBool (BelowROP r)) ].

Definition master_columns : list string :=
  [ "item_code"; "item_name"; "monthly_mean"; "monthly_std"; "annual_qty"; "ABC";
    "XYZ"; "unit_cost"; "ACV"; "z_level"; "lead_time_days"; "supplier"; "SS";
    "ROP"; "EOQ"; "SMIN"; "SMAX"; "OnHand"; "BelowROP" ].

Record alert_row := { al_master : master_row; SuggestedOrderQty : option R }.

Definition alert_record (r : alert_row) : list (string * value) :=
  master_record (al_master r) ++ [("SuggestedOrderQty", VNum (SuggestedOrderQty r))].

(** A data frame: the columns it exposes and its rows. *)
Record table (row : Type) := { tb_columns : list string; tb_rows : list row }.
Arguments tb_columns {row} _.
Arguments tb_rows {row} _.

(** The records a table writes: each row restricted to the table's columns. *)
Definition records {row} (to_record : row → list (string * value)) (t : table row)
  : list (list (string * value)) :=
  (λ r, filter (λ kv, kv.1 ∈ tb_columns t) (to_record r)) <$> tb_rows t.

(** [drop(columns=cs, errors="ignore")]. *)
Definition drop_columns {row} (cs : list string) (t : table row) : table row :=
  {| tb_columns := filter (λ c, c ∉ cs) (tb_columns t); tb_rows := tb_rows t |}.

(** Order on a nullable text column when sorting ascending: [NaN] last. *)
Definition text_lt (a b : option string) : bool :=
  match a, b with
  | Some a, Some b => String.ltb a b
  | Some _, None => true
  | None, _ => false
  end.

(** [sort_values(["ABC","XYZ","annual_qty"], ascending=[True, True, False])]. *)
Definition master_before (y x : master_row) : bool :=
  text_lt (ABC y) (ABC x)
  || bool_decide (ABC y = ABC x)
     && (String.ltb (XYZ y) (XYZ x)
         || bool_decide (XYZ y = XYZ x) && bool_decide (annual_qty x < annual_qty y)).

Record outputs := {
  monthly_out : pivot;
  master_out : table master_row;
  alerts_out : table alert_row }.

Definition run (prices : list price) (issues : list move)
    (heli_set tvh_set : option (gset string)) (lt_map_cfg : option (gmap string Z))
  : result outputs :=
  master ← master_table prices issues heli_set tvh_set lt_map_cfg;
  let master_out :=
    {| tb_columns := master_columns; tb_rows := stable_sort master_before master |} in
  let master_out := drop_columns ["supplier"] master_out in
  let alerts_out :=
    {| tb_columns := tb_columns master_out ++ ["SuggestedOrderQty"];
       tb_rows :=
         (λ r, {| al_master := r;
                  SuggestedOrderQty := (λ smax, clip_lower 0 (smax - OnHand r)) <$> SMAX r |})
           <$> filter (λ r, BelowROP r = true) (tb_rows master_out) |} in
  mret {| monthly_out := mens issues; master_out := master_out; alerts_out := alerts_out |}.

(** [main], after the inputs are loaded (lines 358-363). *)
Definition main (prices : list price) (issues : list move)
    (heli_set tvh_set : gset string) (lt_map_cfg : option (gmap string Z))
  : result outputs :=
  match issues with
  | [] => Err (SystemExit "No hay movimientos válidos tras normalización")
  | _ => run prices issues (Some heli_set) (Some tvh_set) lt_map_cfg
  end.

(** ** Input normalisation (lines 63-110) *)

(** White space of [str.strip()] on code points below 256. *)
Definition is_space_char (c : ascii) : bool :=
  let n := nat_of_ascii c in
  ((9 <=? n) && (n <=? 13) || (28 <=? n) && (n <=? 32) || (n =? 133) || (n =? 160))%nat.

Fixpoint lstrip (s : string) : string :=
  match s with
  | EmptyString => EmptyString
  | String c s' => if is_space_char c then lstrip s' else s
  end.

Fixpoint rstrip (s : string) : string :=
  match s with
  | EmptyString => EmptyString
  | String c s' =>
      match rstrip s' with
      | EmptyString => if is_space_char c then EmptyString else String c EmptyString
      | t => String c t
      end
  end.

Definition strip (s : string) : string := rstrip (lstrip s).

(** [str.upper()] on ASCII text; item codes are ASCII. *)
Definition upper_char (c : ascii) : ascii :=
  let n := nat_of_ascii c in
  if ((97 <=? n) && (n <=? 122))%nat then ascii_of_nat (n - 32) else c.

Fixpoint upper (s : string) : string :=
  match s with
  | EmptyString => EmptyString
  | String c s' => String (upper_char c) (upper s')
  end.

(** [c.startswith(prefixes)] with a tuple of prefixes. *)
Definition startswith_any (prefixes : list string) (c : string) : bool :=
  existsb (λ p, String.prefix p c) prefixes.

(** [sub in c]. *)
Definition contains_text (sub c : string) : bool :=
  match String.index 0 sub c with Some _ => true | None => false end.

(** [next((c for c in columns if test(c)), None)]. *)
Definition first_column (test : string → bool) (columns : list string) : option string :=
  head (filter (λ c, test c = true) columns).

(** A row of a price file after [slug] and the renaming to canonical
    column names; a field is read only when its column is present. *)
Record raw_price := {
  rp_itemcode : option string;
  rp_itemname : option string;
  rp_avgprice : cell }.

Record price_frame := { pf_columns : list string; pf_rows : list raw_price }.

(** [drop_duplicates("itemcode")]: the first row of each code. *)
Fixpoint drop_duplicates (l : list price) : list price :=
  match l with
  | [] => []
  | p :: l' => p :: filter (λ q, p_itemcode q ≠ p_itemcode p) (drop_duplicates l')
  end.

(** The columns [itemcode], [itemname] and [avgprice] of one row
    (lines 81-86). *)
Definition normalize_price_row (has_itemname has_avgprice : bool) (r : raw_price) : price :=
  let avgprice := if has_avgprice then rp_avgprice r else CNum 1 in
  {| p_itemcode := upper (strip (astype_str (rp_itemcode r)));
     p_itemname := if has_itemname then rp_itemname r else Some "";
     p_avgprice := CNum (clip_lower 0 (fillna 1 (to_numeric avgprice))) |}.

Definition normalize_prices (df : price_frame) : result (list price) :=
  if decide ("itemcode" ∈ pf_columns df) then
    let has_avgprice := bool_decide ("avgprice" ∈ pf_columns df) in
    let has_itemname := bool_decide ("itemname" ∈ pf_columns df) in
    Ok (drop_duplicates (normalize_price_row has_itemname has_avgprice <$> pf_rows df))
  else Err (ValueError "No se encontró columna itemcode en precios").

(** A row of a movements file after [slug]: the cell of the SKU column as
    text, the cell of the date column as [pd.to_datetime(_, dayfirst=True,
    errors="coerce")] reads it, and the cells of the other columns by name. *)
Record raw_move := {
  rm_itemcode : option string;
  rm_date : option date;
  rm_cells : string → cell }.

Record move_frame := { mf_columns : list string; mf_rows : list raw_move }.

Definition item_column (columns : list string) : option string :=
  first_column (startswith_any ["numero_de_articulo"; "codigo"; "itemcode"; "sku"; "item"])
               columns.

Definition date_column (columns : list string) : option string :=
  first_column (λ c, contains_text "fecha" c
                     || startswith_any ["date"; "postingdate"; "docdate"] c)
               columns.

Definition qty_column (columns : list string) : option string :=
  first_column (λ c, bool_decide (c ∈ ["quantity"; "qty"; "cantidad";
                                        "cantidad_de_articulos"; "qty_out"]))
               columns.

(** [notna()] and a non-empty text once stripped. *)
Definition valid_itemcode (c : option string) : bool :=
  match c with
  | Some s => negb (String.eqb (strip s) "")
  | None => false
  end.

(** The columns [itemcode], [qty] and [date] of one row (lines 103-109);
    the row is dropped when its date is [NaT]. *)
Definition normalize_move_row (qty_col : option string) (r : raw_move) : option move :=
  d ← rm_date r;
  Some {| itemcode := upper (strip (astype_str (rm_itemcode r)));
          qty := match qty_col with
                 | Some c => clip_lower 0 (fillna 0 (to_numeric (rm_cells r c)))
                 | None => 1
                 end;
          mdate := d |}.

Definition normalize_moves (df : move_frame) : result (list move) :=
  match item_column (mf_columns df) with
  | None => Err (ValueError "No se encontró columna SKU en movimientos")
  | Some item_col =>
      match date_column (mf_columns df) with
      | None => Err (ValueError "No se encontró columna fecha en movimientos")
      | Some date_col =>
          let qty_col := qty_column (mf_columns df) in
          if decide (item_col = date_col) then Err (KeyError "itemcode") else
          let rows :=
            filter (λ r, valid_itemcode (rm_itemcode r) = true) (mf_rows df) in
          Ok (omap (normalize_move_row qty_col) rows)
      end
  end.

(** ** Reference definitions for the statements *)

(** The unit price the price table gives a SKU: the coerced price of its
    entry, and 1.0 when the table has no entry for it. *)
Definition unit_price (prices : list price) (c : string) : R :=
  match filter (λ p, p_itemcode p = c) prices with
  | p :: _ => coerce_price (p_avgprice p)
  | [] => 1
  end.

(** The value of a SKU: quantity times unit price, summed over its records. *)
Definition sku_value (prices : list price) (issues : list move) (c : string) : R :=
  Rsum ((λ m, qty m * unit_price prices c) <$> filter (λ m, itemcode m = c) issues).

(** The months in which at least one record falls, ascending. *)
Definition observed_months (issues : list move) : list Z :=
  stable_sort Z.ltb (unique ((λ m, month_index (mdate m)) <$> issues)).

(** Lower-casing of a whole text, character by character. *)
Fixpoint lower_str (s : string) : string :=
  match s with
  | EmptyString => EmptyString
  | String c s' => String (lower_char c) (lower_str s')
  end.

(** The last character of [s], or [prev] when [s] is empty. *)
Fixpoint last_char (prev : option ascii) (s : string) : option ascii :=
  match s with
  | EmptyString => prev
  | String c s' => last_char (Some c) s'
  end.

(** [s] contains [word] as a whole word, whatever the case: an occurrence
    with no word character right before it and none right after it. *)
Definition has_whole_word (word s : string) : Prop :=
  ∃ pre w post,
    s = pre +:+ w +:+ post ∧ lower_str w = word ∧
    is_word (last_char None pre) = false ∧ is_word (head_char post) = false.



(** ** Sample inputs *)

Definition jan15 : date := {| year := 2024; month := 1; day := 15 |}.
Definition mar10 : date := {| year := 2024; month := 3; day := 10 |}.

(** One SKU, one record. *)
Definition one_sku : list move :=
  [ {| itemcode := "SKU1"; qty := 8; mdate := jan15 |} ].


(** The three SKUs of the end-to-end scenario: values 8000, 1500 and 500. *)
Definition three_skus : list move :=
  [ {| itemcode := "SKU1"; qty := 8; mdate := jan15 |};
    {| itemcode := "SKU2"; qty := 3; mdate := jan15 |};
    {| itemcode := "SKU3"; qty := 500; mdate := jan15 |} ].
Definition three_prices : list price :=
  [ {| p_itemcode := "SKU1"; p_itemname := Some "HELI PUMP"; p_avgprice := CNum 1000 |};
    {| p_itemcode := "SKU2"; p_itemname := Some "HELICAL GEAR"; p_avgprice := CNum 500 |};
    {| p_itemcode := "SKU3"; p_itemname := None; p_avgprice := CText "n/a" |} ].

(** One SKU with records in January and in March only. *)
Definition gap_sku : list move :=
  [ {| itemcode := "A"; qty := 2; mdate := jan15 |};
    {| itemcode := "A"; qty := 5; mdate := mar10 |} ].

(** A price file with an unreadable price and an empty one. *)
Definition sample_price_frame : price_frame :=
  {| pf_columns := ["itemcode"; "itemname"; "avgprice"];
     pf_rows :=
       [ {| rp_itemcode := Some "sku1"; rp_itemname := Some "HELI PUMP";
            rp_avgprice := CText "n/a" |};
         {| rp_itemcode := Some " sku2 "; rp_itemname := None; rp_avgprice := CNaN |} ] |}.

(** A movements file with an unreadable quantity and an empty one. *)
Definition sample_move_frame : move_frame :=
  {| mf_columns := ["codigo"; "fecha"; "cantidad"];
     mf_rows :=
       [ {| rm_itemcode := Some "sku1"; rm_date := Some jan15;
            rm_cells := λ c, if decide (c = "cantidad") then CText "x" else CNaN |};
         {| rm_itemcode := Some "sku2 "; rm_date := Some mar10;
            rm_cells := λ _, CNaN |} ] |}.

(** A movements file without a quantity column. *)
Definition no_qty_frame : move_frame :=
  {| mf_columns := ["itemcode"; "fecha"];
     mf_rows :=
       [ {| rm_itemcode := Some "sku1"; rm_date := Some jan15; rm_cells := λ _, CNaN |} ] |}.

(** Decide the comparisons between closed real expressions that an
    evaluation leaves behind, innermost first. *)
Ltac no_dec t :=
  lazymatch t with
  | context [Rlt_dec _ _] => fail
  | context [Rle_dec _ _] => fail
  | context [Req_dec_T _ _] => fail
  | _ => idtac
  end.

Ltac split_R :=
  repeat match goal with
  | |- context [Rlt_dec ?a ?b] =>
      no_dec a; no_dec b;
      destruct (Rlt_dec a b); [try (exfalso; lra) | try (exfalso; lra)]; cbv iota beta
  | |- context [Rle_dec ?a ?b] =>
      no_dec a; no_dec b;
      destruct (Rle_dec a b); [try (exfalso; lra) | try (exfalso; lra)]; cbv iota beta
  | |- context [Req_dec_T ?a ?b] =>
      no_dec a; no_dec b;
      destruct (Req_dec_T a b); [try (exfalso; lra) | try (exfalso; lra)]; cbv iota beta
  end.

(** Evaluate a closed term of the model, keeping numerals and the
    comparisons of reals, then decide the comparisons. *)
Ltac eval_R := cbv -[IZR Rlt_dec Rle_dec Req_dec_T sqrt]; split_R.

(** ** Supplier lists and loading (lines 112-180 and 347-363) *)

(** A row of a supplier list after [slug]: the cell of the SKU column and
    the cell of the column [nombre_extranjero], each as text. *)
Record supplier_row := {
  sr_itemcode : option string;
  sr_nombre_extranjero : option string }.

Record supplier_frame := { sf_columns : list string; sf_rows : list supplier_row }.

Definition codes_set_from_df (df : supplier_frame) : gset string :=
  match item_column (sf_columns df) with
  | None => ∅
  | Some _ =>
      list_to_set
        (filter (λ s, s ≠ "")
           ((λ r, upper (strip (astype_str (sr_itemcode r)))) <$> sf_rows df))
  end.

(** What became of a file named on the command line. *)
Inductive read_result (A : Type) :=
  | NotGiven
  | Unreadable
  | Read (df : A).
Arguments NotGiven {A}.
Arguments Unreadable {A}.
Arguments Read {A} df.

(** The rows of the TVH list that count: those whose foreign name holds the
    whole word tvh, or all of them when none does or the column is absent. *)
Definition tvh_rows (df : supplier_frame) : supplier_frame :=
  if bool_decide ("nombre_extranjero" ∈ sf_columns df) then
    match filter (λ r, search_word "tvh" None (astype_str (sr_nombre_extranjero r)) = true)
                 (sf_rows df) with
    | [] => df
    | rows => {| sf_columns := sf_columns df; sf_rows := rows |}
    end
  else df.

Definition load_supplier_sets (heli tvh : read_result supplier_frame)
  : gset string * gset string :=
  let heli_set := match heli with Read df => codes_set_from_df df | _ => ∅ end in
  let tvh_set := match tvh with Read df => codes_set_from_df (tvh_rows df) | _ => ∅ end in
  (heli_set, tvh_set).

(** The files of the [excel] and [csv] sources, once read. *)
Record input_files := {
  in_prices : option price_frame;
  in_guias : option move_frame;
  in_salidas : option move_frame;
  in_issues : option move_frame }.

Definition load_inputs (a : input_files) : result (list price * list move) :=
  prices_df ← match in_prices a with Some df => normalize_prices df | None => Ok [] end;
  match in_guias a, in_salidas a with
  | None, None =>
      match in_issues a with
      | Some df => issues_df ← normalize_moves df; Ok (prices_df, issues_df)
      | None =>
          Err (SystemExit "Faltan movimientos: provee --guias y/o --salidas, o --issues")
      end
  | guias, salidas =>
      guias_df ← match guias with Some df => normalize_moves df | None => Ok [] end;
      sal_df ← match salidas with Some df => normalize_moves df | None => Ok [] end;
      Ok (prices_df, guias_df ++ sal_df)
  end.

(** [main] from the files on. *)
Definition main_files (a : input_files) (heli tvh : read_result supplier_frame)
    (lt_map_cfg : option (gmap string Z)) : result outputs :=
  inputs ← load_inputs a;
  let sets := load_supplier_sets heli tvh in
  main inputs.1 inputs.2 sets.1 sets.2 lt_map_cfg.


(** A HELI list naming SKU2 in lower case and padded. *)
Definition heli_list : supplier_frame :=
  {| sf_columns := ["codigo"; "descripcion"];
     sf_rows := [ {| sr_itemcode := Some " sku2 "; sr_nombre_extranjero := None |} ] |}.

(** A TVH list in which only the first row is marked TVH. *)
Definition tvh_list : supplier_frame :=
  {| sf_columns := ["itemcode"; "nombre_extranjero"];
     sf_rows := [ {| sr_itemcode := Some "sku1"; sr_nombre_extranjero := Some "Filter TVH 123" |};
                  {| sr_itemcode := Some "sku3"; sr_nombre_extranjero := Some "TVHX" |} ] |}.

Definition sample_files : input_files :=
  {| in_prices := Some sample_price_frame; in_guias := Some sample_move_frame;
     in_salidas := Some no_qty_frame; in_issues := None |}.

(** ** Reference definitions for the further properties *)



(** A row of the TVH list whose foreign name holds the whole word tvh. *)
Definition marked_tvh (row : supplier_row) : Prop :=
  search_word "tvh" None (astype_str (sr_nombre_extranjero row)) = true.



(** ** Column names (lines 41-44) *)

(** The class [0-9a-zA-Z] of the pattern in [slug]. *)
Definition is_alnum_char (c : ascii) : bool :=
  let n := nat_of_ascii c in
  ((48 <=? n) && (n <=? 57) || (65 <=? n) && (n <=? 90) || (97 <=? n) && (n <=? 122))%nat.

(** [re.sub(r"[^0-9a-zA-Z]+", "_", s)]: every maximal run of characters
    outside the class becomes one underscore; [in_run] tells that the
    current run has been replaced already. *)
Fixpoint sub_runs (in_run : bool) (s : string) : string :=
  match s with
  | EmptyString => EmptyString
  | String c s' =>
      if is_alnum_char c then String c (sub_runs false s')
      else if in_run then sub_runs true s'
      else String "_" (sub_runs true s')
  end.

(** [s.strip(x)] for a single character [x]. *)
Fixpoint lstrip_char (x : ascii) (s : string) : string :=
  match s with
  | EmptyString => EmptyString
  | String c s' => if Ascii.eqb c x then lstrip_char x s' else s
  end.

Fixpoint rstrip_char (x : ascii) (s : string) : string :=
  match s with
  | EmptyString => EmptyString
  | String c s' =>
      match rstrip_char x s' with
      | EmptyString => if Ascii.eqb c x then EmptyString else String c EmptyString
      | t => String c t
      end
  end.

Definition strip_char (x : ascii) (s : string) : string := rstrip_char x (lstrip_char x s).

Section slug.
(** [unicodedata.normalize("NFKD", t).encode("ascii", "ignore").decode()]:
    the compatibility decomposition of the text with every character outside
    ASCII dropped. *)
Variable ascii_fold : string → string.

Definition slug (t : string) : string :=
  lower_str (strip_char "_" (sub_runs false (ascii_fold t))).
End slug.

(** Every character of [s] passes [P]. *)
Fixpoint all_chars (P : ascii → bool) (s : string) : bool :=
  match s with
  | EmptyString => true
  | String c s' => P c && all_chars P s'
  end.

(** [s] holds the character [x] twice in a row. *)
Fixpoint has_pair (x : ascii) (s : string) : bool :=
  match s with
  | EmptyString => false
  | String a s' =>
      match s' with
      | EmptyString => false
      | String b _ => Ascii.eqb a x && Ascii.eqb b x || has_pair x s'
      end
  end.

Definition is_ascii_char (c : ascii) : bool := (nat_of_ascii c <? 128)%nat.

(** A digit, a lower-case letter or the underscore. *)
Definition is_slug_char (c : ascii) : bool :=
  let n := nat_of_ascii c in
  ((48 <=? n) && (n <=? 57) || (97 <=? n) && (n <=? 122) || (n =? 95))%nat.

(** A character of the class or the underscore: what [re.sub] leaves. *)
Definition pre_slug_char (c : ascii) : bool := is_alnum_char c || Ascii.eqb c "_".

Definition starts_with (x : ascii) (s : string) : bool :=
  match s with
  | EmptyString => false
  | String c _ => Ascii.eqb c x
  end.

Fixpoint ends_with (x : ascii) (s : string) : bool :=
  match s with
  | EmptyString => false
  | String c s' =>
      match s' with
      | EmptyString => Ascii.eqb c x
      | String _ _ => ends_with x s'
      end
  end.

(** The shape of a column name after [slug]: digits, lower-case letters and
    underscores, with no underscore at either end and no two in a row. *)
Definition slug_shape (s : string) : Prop :=
  all_chars is_slug_char s = true ∧
  starts_with "_" s = false ∧
  ends_with "_" s = false ∧
  has_pair "_" s = false.
(** * Properties *)

(** ** Numbers *)

Lemma or0_id x : or0 x = x.
Proof. unfold or0. case_decide; congruence. Qed.

Lemma py_max_Rmax a b : py_max a b = Rmax a b.
Proof.
  unfold py_max, Rmax. case_decide; destruct (Rle_dec a b); try reflexivity; lra.
Qed.


Lemma clip_lower_id lo x : lo <= x → clip_lower lo x = x.
Proof. unfold clip_lower. intros. case_decide; lra. Qed.

Lemma clip_lower_below lo x : x < lo → clip_lower lo x = lo.
Proof. unfold clip_lower. intros. case_decide; lra. Qed.


Lemma Rsum_app l1 l2 : Rsum (l1 ++ l2) = Rsum l1 + Rsum l2.
Proof. induction l1 as [|x l1 IH]; simpl; [|rewrite IH]; lra. Qed.

Lemma Rsum_nonneg l : Forall (λ x, 0 <= x) l → 0 <= Rsum l.
Proof. induction 1; simpl; lra. Qed.

Lemma Rsum_zero l : Forall (λ x, x = 0) l → Rsum l = 0.
Proof. induction 1; simpl; lra. Qed.

Lemma cumsum_from_length acc l : length (cumsum_from acc l) = length l.
Proof. revert acc. induction l; intros; simpl; auto. Qed.


(** ** Sorting and distinct values *)

Section stable_sort_facts.
Context {A : Type} (before : A → A → bool).

Lemma insert_sorted_perm x l : insert_sorted before x l ≡ₚ x :: l.
Proof.
  induction l as [|y l IH]; simpl; [done|].
  destruct (before y x); [|done].
  rewrite IH. apply perm_swap.
Qed.

Lemma stable_sort_perm l : stable_sort before l ≡ₚ l.
Proof.
  induction l as [|x l IH]; simpl; [done|].
  rewrite insert_sorted_perm. by rewrite IH.
Qed.

Lemma elem_of_stable_sort x l : x ∈ stable_sort before l ↔ x ∈ l.
Proof. by rewrite stable_sort_perm. Qed.

Lemma stable_sort_length l : length (stable_sort before l) = length l.
Proof. by rewrite stable_sort_perm. Qed.

Lemma stable_sort_NoDup l : NoDup l → NoDup (stable_sort before l).
Proof. by rewrite stable_sort_perm. Qed.

Lemma stable_sort_nil_inv l : stable_sort before l = [] → l = [].
Proof.
  intros H. apply Permutation_nil_r. rewrite <- H. symmetry. apply stable_sort_perm.
Qed.

Hypothesis before_asym : ∀ x y, before x y = true → before y x = false.

Lemma insert_sorted_Sorted x l :
  Sorted (λ a b, before b a = false) l →
  Sorted (λ a b, before b a = false) (insert_sorted before x l).
Proof.
  induction 1 as [|y l Hl IH Hhd]; simpl.
  - repeat constructor.
  - destruct (before y x) eqn:Hyx.
    + constructor; [done|].
      destruct Hhd as [|z l Hz]; simpl.
      * constructor. by apply before_asym.
      * destruct (before z x); constructor; [done|]. by apply before_asym.
    + constructor; [by constructor|]. by constructor.
Qed.

Lemma stable_sort_Sorted l : Sorted (λ a b, before b a = false) (stable_sort before l).
Proof.
  induction l as [|x l IH]; simpl; [constructor|]. by apply insert_sorted_Sorted.
Qed.
End stable_sort_facts.

Section unique_facts.
Context `{EqDecision A}.
Implicit Types l : list A.

Lemma elem_of_unique x l : x ∈ unique l ↔ x ∈ l.
Proof.
  induction l as [|y l IH]; simpl; [done|].
  rewrite !elem_of_cons, list_elem_of_filter, IH.
  destruct (decide (x = y)); tauto.
Qed.

Lemma NoDup_unique l : NoDup (unique l).
Proof.
  induction l as [|y l IH]; simpl; constructor.
  - rewrite list_elem_of_filter. intros [Hne _]. by apply Hne.
  - by apply NoDup_filter.
Qed.
End unique_facts.

Lemma elem_of_group_keys k codes : k ∈ group_keys codes ↔ k ∈ codes.
Proof. unfold group_keys. by rewrite elem_of_stable_sort, elem_of_unique. Qed.

Lemma NoDup_group_keys codes : NoDup (group_keys codes).
Proof. apply stable_sort_NoDup, NoDup_unique. Qed.

(** ** Service level and order quantity *)

Lemma Z_BY_ABC_lookup :
  Z_BY_ABC !! "A" = Some 1.96 ∧ Z_BY_ABC !! "B" = Some 1.65 ∧ Z_BY_ABC !! "C" = Some 1.28.
Proof. repeat split; reflexivity. Qed.

Lemma Z_BY_XYZ_lookup :
  Z_BY_XYZ !! "X" = Some 1.65 ∧ Z_BY_XYZ !! "Y" = Some 1.44 ∧ Z_BY_XYZ !! "Z" = Some 1.28.
Proof. repeat split; reflexivity. Qed.

Lemma pick_z_known a x za zx :
  Z_BY_ABC !! a = Some za → Z_BY_XYZ !! x = Some zx → pick_z a x = Rmax za zx.
Proof. intros Ha Hx. unfold pick_z. rewrite Ha, Hx. apply py_max_Rmax. Qed.

(** C5: on the 3x3 grid the z-score is the larger of the two table
    entries; (A, Z) gives 1.96 and (C, X) gives 1.65. *)
Theorem pick_z_grid (a x : string) (za zx : R) :
  (a, za) ∈ [("A", 1.96); ("B", 1.65); ("C", 1.28)] →
  (x, zx) ∈ [("X", 1.65); ("Y", 1.44); ("Z", 1.28)] →
  Z_BY_ABC !! a = Some za ∧ Z_BY_XYZ !! x = Some zx ∧
  pick_z a x = Rmax za zx ∧
  pick_z "A" "Z" = 1.96 ∧ pick_z "C" "X" = 1.65.
Proof.
  intros Ha Hx.
  destruct Z_BY_ABC_lookup as (HA & HB & HC).
  destruct Z_BY_XYZ_lookup as (HX & HY & HZ).
  assert (Z_BY_ABC !! a = Some za) as Hza.
  { rewrite !elem_of_cons, elem_of_nil in Ha.
    destruct Ha as [Ha|[Ha|[Ha|[]]]]; injection Ha as -> ->; assumption. }
  assert (Z_BY_XYZ !! x = Some zx) as Hzx.
  { rewrite !elem_of_cons, elem_of_nil in Hx.
    destruct Hx as [Hx|[Hx|[Hx|[]]]]; injection Hx as -> ->; assumption. }
  repeat split; try assumption.
  - by apply pick_z_known.
  - rewrite (pick_z_known _ _ _ _ HA HZ). unfold Rmax. destruct (Rle_dec _ _); lra.
  - rewrite (pick_z_known _ _ _ _ HC HX). unfold Rmax. destruct (Rle_dec _ _); lra.
Qed.

Lemma pick_z_grid_witness :
  Z_BY_ABC !! "A" = Some 1.96 ∧ Z_BY_XYZ !! "Z" = Some 1.28 ∧
  pick_z "A" "Z" = Rmax 1.96 1.28 ∧
  pick_z "A" "Z" = 1.96 ∧ pick_z "C" "X" = 1.65.
Proof.
  apply (pick_z_grid "A" "Z" 1.96 1.28).
  - apply list_elem_of_here.
  - do 2 apply list_elem_of_further. apply list_elem_of_here.
Defined.

Lemma eoq_positive D S H C :
  0 < D → 0 < S → 0 < H * C → eoq D S H C = sqrt ((2 * D * S) / (H * C)).
Proof.
  intros HD HS HHC. unfold eoq. rewrite !or0_id.
  case_decide as Hg; [|reflexivity]. lra.
Qed.

Lemma eoq_degenerate D S H C :
  ¬ (0 < D ∧ 0 < S ∧ 0 < H * C) → eoq D S H C = 0.
Proof.
  intros Hn. unfold eoq. rewrite !or0_id.
  case_decide as Hg; [reflexivity|]. exfalso. apply Hn. lra.
Qed.


(** ** Value per SKU *)

Lemma filter_fmap_comm {A B} (f : A → B) (P : B → Prop) `{!∀ x, Decision (P x)}
    (l : list A) :
  filter P (f <$> l) = f <$> filter (λ x, P (f x)) l.
Proof.
  induction l as [|x l IH]; [done|].
  rewrite fmap_cons, !filter_cons. simpl. rewrite IH.
  destruct (decide (P (f x))); done.
Qed.

Lemma filter_unique_key {A} (f : A → string) (l : list A) c :
  NoDup (f <$> l) →
  filter (λ p, f p = c) l = [] ∨ ∃ p, filter (λ p, f p = c) l = [p].
Proof.
  induction l as [|a l IH]; [by left|].
  rewrite fmap_cons, NoDup_cons. intros [Ha Hl].
  rewrite filter_cons. destruct (decide (f a = c)) as [Hc|Hc]; [|by apply IH].
  right. exists a. f_equal.
  destruct (filter (λ p, f p = c) l) as [|q t] eqn:Hq; [done|].
  exfalso. apply Ha.
  assert (q ∈ filter (λ p, f p = c) l) as Hin by (rewrite Hq; left).
  apply list_elem_of_filter in Hin as [Hfq Hin].
  rewrite Hc, <- Hfq. by apply list_elem_of_fmap_2.
Qed.

Lemma merge_left_join issues ps :
  NoDup (pr_itemcode <$> ps) →
  merge_left issues ps = (λ m, join_row m (head (matching ps (itemcode m)))) <$> issues.
Proof.
  intros Hnd. unfold merge_left.
  induction issues as [|m issues IH]; [done|].
  rewrite bind_cons, fmap_cons, IH. clear IH.
  destruct (filter_unique_key pr_itemcode ps (itemcode m) Hnd) as [He|[p He]];
    unfold matching; rewrite He; done.
Qed.

Lemma prepare_prices_codes prices issues :
  NoDup (p_itemcode <$> prices) → NoDup (pr_itemcode <$> prepare_prices prices issues).
Proof.
  intros Hnd. unfold prepare_prices. rewrite <- list_fmap_compose.
  destruct prices as [|p prices].
  - unfold default_prices. rewrite <- list_fmap_compose. simpl.
    rewrite list_fmap_id. apply NoDup_unique.
  - exact Hnd.
Qed.

Lemma prepared_unit_price prices issues c :
  fillna 1 (pr_avgprice <$> head (matching (prepare_prices prices issues) c))
  = unit_price prices c.
Proof.
  unfold unit_price. destruct prices as [|p0 prices].
  - simpl. destruct (head _) as [p|] eqn:Hp; [|done]. simpl.
    apply head_Some_elem_of in Hp. apply list_elem_of_filter in Hp as [_ Hp].
    unfold prepare_prices, default_prices in Hp.
    apply list_elem_of_fmap in Hp as (q & -> & Hq).
    apply list_elem_of_fmap in Hq as (k & -> & _). simpl.
    unfold coerce_price. simpl. apply clip_lower_id. lra.
  - unfold prepare_prices, matching.
    rewrite (filter_fmap_comm _ (λ p, pr_itemcode p = c)). simpl.
    destruct (filter _ (p0 :: prices)); done.
Qed.

Lemma merged_codes prices issues :
  NoDup (p_itemcode <$> prices) →
  c_itemcode <$> merge_left issues (prepare_prices prices issues) = itemcode <$> issues.
Proof.
  intros Hnd. rewrite merge_left_join by by apply prepare_prices_codes.
  rewrite <- list_fmap_compose. done.
Qed.

Lemma merged_group_valor prices issues k :
  NoDup (p_itemcode <$> prices) →
  Rsum (c_valor <$> filter (λ r, c_itemcode r = k)
                      (merge_left issues (prepare_prices prices issues)))
  = sku_value prices issues k.
Proof.
  intros Hnd. rewrite merge_left_join by by apply prepare_prices_codes.
  rewrite (filter_fmap_comm _ (λ r, c_itemcode r = k)). simpl.
  rewrite <- list_fmap_compose. unfold sku_value. f_equal.
  apply list_fmap_ext. intros i m Hm.
  apply list_elem_of_lookup_2, list_elem_of_filter in Hm as [<- _].
  simpl. by rewrite prepared_unit_price.
Qed.

Lemma elem_of_groupby_agg cons r :
  r ∈ groupby_agg cons ↔
  a_itemcode r ∈ c_itemcode <$> cons ∧
  r = let g := filter (λ x, c_itemcode x = a_itemcode r) cons in
      {| a_itemcode := a_itemcode r; a_itemname := head (omap c_itemname g);
         a_valor := Rsum (c_valor <$> g); a_unidades := Rsum (c_qty <$> g) |}.
Proof.
  unfold groupby_agg. rewrite list_elem_of_fmap. split.
  - intros (k & -> & Hk). rewrite elem_of_group_keys in Hk. by split.
  - intros [Hk Hr]. exists (a_itemcode r). split; [done|]. by rewrite elem_of_group_keys.
Qed.

Lemma groupby_agg_codes cons :
  a_itemcode <$> groupby_agg cons = group_keys (c_itemcode <$> cons).
Proof. unfold groupby_agg. rewrite <- list_fmap_compose. apply list_fmap_id. Qed.

Lemma aggregate_perm prices issues :
  aggregate prices issues
  ≡ₚ groupby_agg (merge_left issues (prepare_prices prices issues)).
Proof. apply stable_sort_perm. Qed.

Lemma aggregate_valor prices issues r :
  NoDup (p_itemcode <$> prices) →
  r ∈ aggregate prices issues →
  a_itemcode r ∈ itemcode <$> issues ∧ a_valor r = sku_value prices issues (a_itemcode r).
Proof.
  intros Hnd. rewrite aggregate_perm, elem_of_groupby_agg.
  rewrite merged_codes by done. intros [Hk ->]. split; [done|]. simpl.
  by apply merged_group_valor.
Qed.

Lemma aggregate_codes prices issues :
  NoDup (p_itemcode <$> prices) →
  NoDup (a_itemcode <$> aggregate prices issues) ∧
  ∀ c, c ∈ a_itemcode <$> aggregate prices issues ↔ c ∈ itemcode <$> issues.
Proof.
  intros Hnd.
  assert (a_itemcode <$> aggregate prices issues ≡ₚ group_keys (itemcode <$> issues)) as Hp.
  { rewrite aggregate_perm, groupby_agg_codes, merged_codes; done. }
  split.
  - rewrite Hp. apply NoDup_group_keys.
  - intros c. rewrite Hp. apply elem_of_group_keys.
Qed.

(** ** Ranking and cumulative share *)

Lemma Sorted_weaken {A} (R1 R2 : relation A) l :
  (∀ a b, R1 a b → R2 a b) → Sorted R1 l → Sorted R2 l.
Proof.
  intros HR. induction 1 as [|x l Hl IH Hhd]; constructor; [done|].
  destruct Hhd; constructor; auto.
Qed.


Lemma pct_column_length l : length (pct_column l) = length l.
Proof.
  unfold pct_column, cumsum. case_decide; rewrite length_fmap; [|done].
  apply cumsum_from_length.
Qed.


Lemma abc_table_agg prices issues :
  ab_agg <$> abc_table prices issues = aggregate prices issues.
Proof.
  unfold abc_table. rewrite fmap_zip_with_l; [done..|].
  by rewrite pct_column_length, length_fmap.
Qed.



Lemma abc_table_elem_agg prices issues r :
  r ∈ abc_table prices issues → ab_agg r ∈ aggregate prices issues.
Proof. intros Hr. rewrite <- abc_table_agg. by apply list_elem_of_fmap_2. Qed.







Lemma three_skus_aggregate :
  aggregate three_prices three_skus
  = [ {| a_itemcode := "SKU1"; a_itemname := Some "HELI PUMP";
         a_valor := 8000; a_unidades := 8 |};
      {| a_itemcode := "SKU2"; a_itemname := Some "HELICAL GEAR";
         a_valor := 1500; a_unidades := 3 |};
      {| a_itemcode := "SKU3"; a_itemname := None;
         a_valor := 500; a_unidades := 500 |} ].
Proof. eval_R. repeat f_equal; lra. Qed.

(** The end-to-end scenario: values 8000, 1500 and 500 give shares 0.80,
    0.95 and 1.00, hence the classes A, B and C. *)
Example three_skus_classes :
  (λ r, (a_itemcode (ab_agg r), ab_ABC r)) <$> abc_table three_prices three_skus
  = [("SKU1", "A"); ("SKU2", "B"); ("SKU3", "C")].
Proof. unfold abc_table. rewrite three_skus_aggregate. eval_R. reflexivity. Qed.

(** ** The top-ranked SKU *)








(** ** Monthly demand *)

Lemma foldr_min_spec d l :
  (foldr Z.min d l ≤ d)%Z ∧ (∀ x, x ∈ l → (foldr Z.min d l ≤ x)%Z) ∧
  (foldr Z.min d l = d ∨ foldr Z.min d l ∈ l).
Proof.
  induction l as [|y l (IH1 & IH2 & IH3)]; simpl.
  - split; [lia|]. split; [|by left]. intros x Hx. by apply elem_of_nil in Hx.
  - split; [lia|]. split.
    + intros x Hx. apply elem_of_cons in Hx as [->|Hx]; [lia|].
      specialize (IH2 x Hx). lia.
    + destruct (Z.min_spec y (foldr Z.min d l)) as [[_ ->]|[_ ->]].
      * right. left.
      * destruct IH3 as [->|IH3]; [by left|right; by right].
Qed.

Lemma foldr_max_spec d l :
  (d ≤ foldr Z.max d l)%Z ∧ (∀ x, x ∈ l → (x ≤ foldr Z.max d l)%Z) ∧
  (foldr Z.max d l = d ∨ foldr Z.max d l ∈ l).
Proof.
  induction l as [|y l (IH1 & IH2 & IH3)]; simpl.
  - split; [lia|]. split; [|by left]. intros x Hx. by apply elem_of_nil in Hx.
  - split; [lia|]. split.
    + intros x Hx. apply elem_of_cons in Hx as [->|Hx]; [lia|].
      specialize (IH2 x Hx). lia.
    + destruct (Z.max_spec y (foldr Z.max d l)) as [[_ ->]|[_ ->]].
      * destruct IH3 as [->|IH3]; [by left|right; by right].
      * right. left.
Qed.

Lemma elem_of_month_span ms b :
  b ∈ month_span ms ↔ ∃ m1 m2, m1 ∈ ms ∧ m2 ∈ ms ∧ (m1 ≤ b ≤ m2)%Z.
Proof.
  unfold month_span. destruct ms as [|m ms'].
  { split; [by intros ?%elem_of_nil|]. intros (m1 & _ & Hm1 & _). by apply elem_of_nil in Hm1. }
  set (ms := m :: ms').
  destruct (foldr_min_spec m ms) as (_ & Hlo & Hlo').
  destruct (foldr_max_spec m ms) as (_ & Hhi & Hhi').
  assert (m ∈ ms) as Hm by left.
  rewrite elem_of_seqZ. split.
  - intros Hb. exists (foldr Z.min m ms), (foldr Z.max m ms).
    split; [by destruct Hlo' as [->|?]|]. split; [by destruct Hhi' as [->|?]|]. lia.
  - intros (m1 & m2 & Hm1 & Hm2 & Hb).
    specialize (Hlo m1 Hm1). specialize (Hhi m2 Hm2). lia.
Qed.

Lemma NoDup_month_span ms : NoDup (month_span ms).
Proof. unfold month_span. destruct ms; [constructor|apply NoDup_seqZ]. Qed.

Lemma resample_sum_cell g b :
  default 0 ((list_to_map (resample_sum g) : gmap Z R) !! b) = month_total g b.
Proof.
  unfold resample_sum.
  set (ms := (λ m, month_index (mdate m)) <$> g).
  destruct (decide (b ∈ month_span ms)) as [Hb|Hb].
  - rewrite (elem_of_list_to_map_1 _ b (month_total g b)); [done| |].
    + rewrite <- list_fmap_compose. simpl. rewrite list_fmap_id. apply NoDup_month_span.
    + apply list_elem_of_fmap. by exists b.
  - rewrite (not_elem_of_list_to_map_1 _ b).
    2:{ rewrite <- list_fmap_compose. simpl. by rewrite list_fmap_id. }
    simpl. unfold month_total.
    destruct (filter _ g) as [|m t] eqn:Hf; [simpl; lra|].
    exfalso. apply Hb.
    assert (m ∈ filter (λ m, month_index (mdate m) = b) g) as Hm by (rewrite Hf; left).
    apply list_elem_of_filter in Hm as [Hmb Hm].
    apply elem_of_month_span. exists b, b.
    assert (b ∈ ms) by (apply list_elem_of_fmap; by exists m).
    repeat split; [done|done|lia|lia].
Qed.

Lemma StronglySorted_lt_of_le (l : list Z) :
  StronglySorted Z.le l → NoDup l → StronglySorted Z.lt l.
Proof.
  induction 1 as [|x l Hl IH Hx]; intros Hnd; constructor.
  - apply IH. by apply NoDup_cons in Hnd as [_ ?].
  - apply NoDup_cons in Hnd as [Hnx _].
    rewrite Forall_forall in *. intros y Hy. specialize (Hx y Hy).
    assert (x ≠ y) by (intros ->; done). lia.
Qed.

Lemma sort_unique_Z_sorted (l : list Z) :
  StronglySorted Z.lt (stable_sort Z.ltb (unique l)).
Proof.
  apply StronglySorted_lt_of_le.
  - apply Sorted_StronglySorted.
    { intros a b c ??. lia. }
    eapply Sorted_weaken; [|apply stable_sort_Sorted].
    + intros a b Hb. simpl in Hb. apply Z.ltb_ge in Hb. lia.
    + intros x y Hxy. apply Z.ltb_lt in Hxy. apply Z.ltb_ge. lia.
  - apply stable_sort_NoDup, NoDup_unique.
Qed.

Lemma mens_keys issues : (pv_rows (mens issues)).*1 = group_keys (itemcode <$> issues).
Proof.
  unfold mens, unstack_fill0, monthly_by_sku. simpl.
  rewrite <- !list_fmap_compose. apply list_fmap_id.
Qed.

Lemma elem_of_mens_columns issues b :
  b ∈ pv_columns (mens issues) ↔
  ∃ k, k ∈ itemcode <$> issues ∧
       b ∈ month_span ((λ m, month_index (mdate m)) <$> filter (λ m, itemcode m = k) issues).
Proof.
  unfold mens, unstack_fill0, monthly_by_sku. simpl.
  rewrite elem_of_stable_sort, elem_of_unique, list_elem_of_bind. split.
  - intros (kv & Hb & Hkv). apply list_elem_of_fmap in Hkv as (k & -> & Hk).
    rewrite elem_of_group_keys in Hk. exists k. split; [done|].
    simpl in Hb. unfold resample_sum in Hb.
    rewrite <- list_fmap_compose in Hb. simpl in Hb. by rewrite list_fmap_id in Hb.
  - intros (k & Hk & Hb). eexists. split.
    2:{ apply list_elem_of_fmap. exists k. split; [done|]. by rewrite elem_of_group_keys. }
    simpl. unfold resample_sum. rewrite <- list_fmap_compose. simpl.
    by rewrite list_fmap_id.
Qed.

Lemma elem_of_mens_rows issues k series :
  (k, series) ∈ pv_rows (mens issues) ↔
  k ∈ itemcode <$> issues ∧
  series = (λ b, month_total (filter (λ m, itemcode m = k) issues) b)
             <$> pv_columns (mens issues).
Proof.
  unfold mens, unstack_fill0, monthly_by_sku. simpl.
  rewrite list_elem_of_fmap. split.
  - intros (kv & Heq & Hkv). apply list_elem_of_fmap in Hkv as (k' & -> & Hk).
    simpl in Heq. injection Heq as -> ->. rewrite elem_of_group_keys in Hk.
    split; [done|]. apply list_fmap_ext. intros i b _. apply resample_sum_cell.
  - intros [Hk ->]. eexists. split.
    2:{ apply list_elem_of_fmap. exists k. split; [done|]. by rewrite elem_of_group_keys. }
    simpl. f_equal. apply list_fmap_ext. intros i b _. symmetry. apply resample_sum_cell.
Qed.

(** C9, as the code has it: every SKU's series is laid over the same
    ascending list of months and has its length; that list holds every month
    lying between two records of one SKU, hence every observed month; a cell
    is the sum of the SKU's quantities in that month, 0 when it has none. *)
Theorem monthly_series_dense (issues : list move) :
  let pv := mens issues in
  StronglySorted Z.lt (pv_columns pv) ∧
  (pv_rows pv).*1 = group_keys (itemcode <$> issues) ∧
  (∀ row, row ∈ pv_rows pv → length row.2 = length (pv_columns pv)) ∧
  (∀ b, b ∈ pv_columns pv ↔
        ∃ m1 m2, m1 ∈ issues ∧ m2 ∈ issues ∧ itemcode m1 = itemcode m2 ∧
                 (month_index (mdate m1) ≤ b ≤ month_index (mdate m2))%Z) ∧
  (∀ m, m ∈ issues → month_index (mdate m) ∈ pv_columns pv) ∧
  (∀ k series i b,
     (k, series) ∈ pv_rows pv → pv_columns pv !! i = Some b →
     series !! i
     = Some (Rsum (qty <$> filter (λ m, month_index (mdate m) = b ∧ itemcode m = k) issues))) ∧
  (∀ k series i b,
     (k, series) ∈ pv_rows pv → pv_columns pv !! i = Some b →
     (∀ m, m ∈ issues → itemcode m = k → month_index (mdate m) ≠ b) →
     series !! i = Some 0).
Proof.
  intros pv.
  assert (∀ b, b ∈ pv_columns pv ↔
        ∃ m1 m2, m1 ∈ issues ∧ m2 ∈ issues ∧ itemcode m1 = itemcode m2 ∧
                 (month_index (mdate m1) ≤ b ≤ month_index (mdate m2))%Z) as Hcols.
  { intros b. unfold pv. rewrite elem_of_mens_columns. split.
    - intros (k & Hk & Hb). apply elem_of_month_span in Hb as (x1 & x2 & H1 & H2 & Hb).
      apply list_elem_of_fmap in H1 as (m1 & -> & H1).
      apply list_elem_of_fmap in H2 as (m2 & -> & H2).
      apply list_elem_of_filter in H1 as [E1 H1].
      apply list_elem_of_filter in H2 as [E2 H2].
      exists m1, m2. repeat split; try done; [congruence|lia..].
    - intros (m1 & m2 & H1 & H2 & E & Hb). exists (itemcode m1). split.
      { by apply list_elem_of_fmap_2. }
      apply elem_of_month_span.
      exists (month_index (mdate m1)), (month_index (mdate m2)).
      split; [|split; [|done]].
      + apply list_elem_of_fmap. exists m1. split; [done|].
        by apply list_elem_of_filter.
      + apply list_elem_of_fmap. exists m2. split; [done|].
        by apply list_elem_of_filter. }
  assert (∀ k series i b,
     (k, series) ∈ pv_rows pv → pv_columns pv !! i = Some b →
     series !! i
     = Some (Rsum (qty <$> filter (λ m, month_index (mdate m) = b ∧ itemcode m = k) issues)))
    as Hcell.
  { intros k series i b Hrow Hb. unfold pv in Hrow.
    apply elem_of_mens_rows in Hrow as [_ ->].
    rewrite list_lookup_fmap. fold pv. rewrite Hb. simpl.
    unfold month_total. by rewrite list_filter_filter. }
  split; [apply sort_unique_Z_sorted|].
  split; [apply mens_keys|].
  split.
  { intros [k series] Hrow. unfold pv in Hrow.
    apply elem_of_mens_rows in Hrow as [_ ->]. simpl. by rewrite length_fmap. }
  split; [done|].
  split.
  { intros m Hm. apply Hcols. exists m, m. repeat split; try done; lia. }
  split; [done|].
  intros k series i b Hrow Hb Hnone.
  rewrite (Hcell k series i b Hrow Hb). do 2 f_equal.
  destruct (filter _ issues) as [|m t] eqn:Hf; [done|].
  assert (m ∈ filter (λ m, month_index (mdate m) = b ∧ itemcode m = k) issues) as Hm
    by (rewrite Hf; left).
  apply list_elem_of_filter in Hm as [[Hmb Hmk] Hm].
  by destruct (Hnone m Hm Hmk).
Qed.

(** C9 fails as stated: a SKU with records in January and March gets a
    February column, a month in which no record falls. *)
Lemma mens_columns_not_observed :
  pv_columns (mens gap_sku) = [24288; 24289; 24290]%Z ∧
  observed_months gap_sku = [24288; 24290]%Z ∧
  pv_columns (mens gap_sku) ≠ observed_months gap_sku.
Proof.
  assert (pv_columns (mens gap_sku) = [24288; 24289; 24290]%Z) as H1
    by (vm_compute; reflexivity).
  assert (observed_months gap_sku = [24288; 24290]%Z) as H2
    by (vm_compute; reflexivity).
  split; [done|]. split; [done|]. rewrite H1, H2. discriminate.
Qed.

Example gap_sku_series :
  pv_rows (mens gap_sku) = [("A", [2; 0; 5])].
Proof.
  vm_compute. do 2 f_equal. repeat (f_equal; try lra).
Qed.

(** ** The master table *)

Lemma reindex_prices_ok prices issues :
  NoDup (p_itemcode <$> prices) →
  reindex_prices (prepare_prices prices issues)
  = Ok (λ k, pr_avgprice <$> head (matching (prepare_prices prices issues) k)).
Proof.
  intros Hnd. unfold reindex_prices.
  rewrite decide_True by by apply prepare_prices_codes. done.
Qed.


Lemma master_table_ok prices issues heli_set tvh_set lt_map_cfg :
  NoDup (p_itemcode <$> prices) →
  master_table prices issues heli_set tvh_set lt_map_cfg
  = Ok (master_of (abc_table prices issues)
          (λ k, pr_avgprice <$> head (matching (prepare_prices prices issues) k))
          (default ∅ heli_set) (default ∅ tvh_set) lt_map_cfg
        <$> pv_rows (mens issues)).
Proof. intros Hnd. unfold master_table. by rewrite reindex_prices_ok. Qed.

Lemma master_of_item_code tbl f hs ts cfg (rows : list (string * list R)) :
  item_code <$> (master_of tbl f hs ts cfg <$> rows) = rows.*1.
Proof. rewrite <- list_fmap_compose. done. Qed.

Lemma mens_row_length_pos issues k series :
  (k, series) ∈ pv_rows (mens issues) → (0 < length series)%nat.
Proof.
  intros Hrow. apply elem_of_mens_rows in Hrow as [Hk ->].
  rewrite length_fmap.
  apply list_elem_of_fmap in Hk as (m & -> & Hm).
  assert (month_index (mdate m) ∈ pv_columns (mens issues)) as Hin.
  { apply elem_of_mens_columns. exists (itemcode m). split.
    - by apply list_elem_of_fmap_2.
    - apply elem_of_month_span.
      exists (month_index (mdate m)), (month_index (mdate m)).
      assert (month_index (mdate m)
              ∈ (λ m, month_index (mdate m)) <$> filter (λ x, itemcode x = itemcode m) issues).
      { apply list_elem_of_fmap. exists m. split; [done|]. by apply list_elem_of_filter. }
      repeat split; [done|done|lia|lia]. }
  destruct (pv_columns (mens issues)); [by apply elem_of_nil in Hin|simpl; lia].
Qed.

(** ** XYZ by coefficient of variation *)

Lemma cv_of_cases series :
  cv_of series
  = match mean series, std series with
    | Some mu, Some sd => if decide (mu = 0) then None else Some (sd / mu)
    | _, _ => None
    end.
Proof.
  unfold cv_of, replace_zero_nan.
  destruct (mean series) as [mu|], (std series) as [sd|]; simpl; try done.
  case_decide; done.
Qed.

Lemma xyz_of_cv_spec cv :
  (cv = None → xyz_of_cv cv = "Z") ∧
  (∀ v, cv = Some v →
     (v <= 0.50 → xyz_of_cv cv = "X") ∧
     (0.50 < v <= 1.00 → xyz_of_cv cv = "Y") ∧
     (1.00 < v → xyz_of_cv cv = "Z")).
Proof.
  split; [by intros ->|]. intros v ->.
  unfold xyz_of_cv, XYZ_CUTS. simpl.
  repeat case_bool_decide; simpl; repeat split; intros; try done; lra.
Qed.



(** ** Safety stock, reorder point and order quantity *)

Lemma np_sqrt_nonneg x : 0 <= x → np_sqrt x = Some (sqrt x).
Proof. intros Hx. unfold np_sqrt. rewrite decide_False by lra. done. Qed.

(** C2: for every SKU, SS = z_level * sqrt(lead_time_days) * daily_std and
    ROP = daily_mean * lead_time_days + SS, with the daily statistics a
    thirtieth of the monthly ones and a missing statistic taken as 0. *)
Theorem safety_stock_and_reorder_point (prices : list price) (issues : list move)
    (heli_set tvh_set : option (gset string)) (lt_map_cfg : option (gmap string Z)) :
  NoDup (p_itemcode <$> prices) →
  ∃ rows,
    master_table prices issues heli_set tvh_set lt_map_cfg = Ok rows ∧
    item_code <$> rows = group_keys (itemcode <$> issues) ∧
    ∀ r, r ∈ rows →
      let daily_mean := match monthly_mean r with Some m => m / 30 | None => 0 end in
      let daily_std := match monthly_std r with Some s => s / 30 | None => 0 end in
      0 <= lead_time_days r →
      SS r = Some (z_level r * sqrt (lead_time_days r) * daily_std) ∧
      ROP r = Some (daily_mean * lead_time_days r
                    + z_level r * sqrt (lead_time_days r) * daily_std).
Proof.
  intros Hnd. eexists. split; [by apply master_table_ok|].
  split; [rewrite master_of_item_code; apply mens_keys|].
  intros r Hr. apply list_elem_of_fmap in Hr as ([k series] & -> & Hrow).
  simpl. intros Hlt. rewrite (np_sqrt_nonneg _ Hlt). simpl.
  destruct (mean series), (std series); simpl; done.
Qed.

Lemma safety_stock_and_reorder_point_witness :
  ∃ rows,
    master_table three_prices three_skus None None None = Ok rows ∧
    item_code <$> rows = group_keys (itemcode <$> three_skus) ∧
    ∀ r, r ∈ rows →
      let daily_mean := match monthly_mean r with Some m => m / 30 | None => 0 end in
      let daily_std := match monthly_std r with Some s => s / 30 | None => 0 end in
      0 <= lead_time_days r →
      SS r = Some (z_level r * sqrt (lead_time_days r) * daily_std) ∧
      ROP r = Some (daily_mean * lead_time_days r
                    + z_level r * sqrt (lead_time_days r) * daily_std).
Proof.
  apply (safety_stock_and_reorder_point three_prices three_skus None None None).
  apply (bool_decide_unpack _). vm_compute. exact I.
Defined.

Lemma master_unit_cost prices issues k :
  fillna 1 (pr_avgprice <$> head (matching (prepare_prices prices issues) k))
  = unit_price prices k.
Proof. apply prepared_unit_price. Qed.

(** C4: for every SKU, EOQ = sqrt(2 * annual_qty * 15000 / (0.25 * unit_cost))
    when annual_qty, the order cost and holding_rate * unit_cost are positive,
    and 0 otherwise; eoq is 0 when D, S or H is 0. *)
Theorem economic_order_quantity (prices : list price) (issues : list move)
    (heli_set tvh_set : option (gset string)) (lt_map_cfg : option (gmap string Z)) :
  NoDup (p_itemcode <$> prices) →
  ORDER_COST = 15000 ∧ HOLDING_RATE = 0.25 ∧
  (∀ D S H C, 0 < D → 0 < S → 0 < H * C → eoq D S H C = sqrt ((2 * D * S) / (H * C))) ∧
  (∀ D S H C, ¬ (0 < D ∧ 0 < S ∧ 0 < H * C) → eoq D S H C = 0) ∧
  (∀ S H C, eoq 0 S H C = 0) ∧
  (∀ D H C, eoq D 0 H C = 0) ∧
  (∀ D S C, eoq D S 0 C = 0) ∧
  ∃ rows,
    master_table prices issues heli_set tvh_set lt_map_cfg = Ok rows ∧
    item_code <$> rows = group_keys (itemcode <$> issues) ∧
    ∀ r, r ∈ rows →
      unit_cost r = unit_price prices (item_code r) ∧
      EOQ r = eoq (annual_qty r) ORDER_COST HOLDING_RATE (unit_cost r) ∧
      (0 < annual_qty r → 0 < 0.25 * unit_cost r →
       EOQ r = sqrt ((2 * annual_qty r * 15000) / (0.25 * unit_cost r))) ∧
      (¬ (0 < annual_qty r ∧ 0 < 0.25 * unit_cost r) → EOQ r = 0).
Proof.
  intros Hnd.
  split; [done|]. split; [done|].
  split; [apply eoq_positive|]. split; [apply eoq_degenerate|].
  split; [intros; apply eoq_degenerate; lra|].
  split; [intros; apply eoq_degenerate; lra|].
  split; [intros; apply eoq_degenerate; lra|].
  eexists. split; [by apply master_table_ok|].
  split; [rewrite master_of_item_code; apply mens_keys|].
  intros r Hr. apply list_elem_of_fmap in Hr as ([k series] & -> & Hrow).
  simpl. split; [apply master_unit_cost|]. split; [done|]. split.
  - intros HD HC. apply eoq_positive; unfold ORDER_COST, HOLDING_RATE; lra.
  - intros Hn. apply eoq_degenerate. unfold ORDER_COST, HOLDING_RATE. intros (? & ? & ?).
    apply Hn. split; lra.
Qed.

Lemma economic_order_quantity_witness :
  ORDER_COST = 15000 ∧ HOLDING_RATE = 0.25 ∧
  (∀ D S H C, 0 < D → 0 < S → 0 < H * C → eoq D S H C = sqrt ((2 * D * S) / (H * C))) ∧
  (∀ D S H C, ¬ (0 < D ∧ 0 < S ∧ 0 < H * C) → eoq D S H C = 0) ∧
  (∀ S H C, eoq 0 S H C = 0) ∧
  (∀ D H C, eoq D 0 H C = 0) ∧
  (∀ D S C, eoq D S 0 C = 0) ∧
  ∃ rows,
    master_table three_prices three_skus None None None = Ok rows ∧
    item_code <$> rows = group_keys (itemcode <$> three_skus) ∧
    ∀ r, r ∈ rows →
      unit_cost r = unit_price three_prices (item_code r) ∧
      EOQ r = eoq (annual_qty r) ORDER_COST HOLDING_RATE (unit_cost r) ∧
      (0 < annual_qty r → 0 < 0.25 * unit_cost r →
       EOQ r = sqrt ((2 * annual_qty r * 15000) / (0.25 * unit_cost r))) ∧
      (¬ (0 < annual_qty r ∧ 0 < 0.25 * unit_cost r) → EOQ r = 0).
Proof.
  apply (economic_order_quantity three_prices three_skus None None None).
  apply (bool_decide_unpack _). vm_compute. exact I.
Defined.

(** ** Supplier *)

Lemma lower_h_word c : lower_char c = "h"%char → is_word_char c = true.
Proof.
  destruct c as [[] [] [] [] [] [] [] []]; vm_compute; intros H;
    first [reflexivity | discriminate H].
Qed.

Lemma lower_i_word c : lower_char c = "i"%char → is_word_char c = true.
Proof.
  destruct c as [[] [] [] [] [] [] [] []]; vm_compute; intros H;
    first [reflexivity | discriminate H].
Qed.

Lemma lower_str_heli w :
  lower_str w = "heli" ↔
  ∃ c1 c2 c3 c4,
    w = String c1 (String c2 (String c3 (String c4 EmptyString))) ∧
    lower_char c1 = "h"%char ∧ lower_char c2 = "e"%char ∧
    lower_char c3 = "l"%char ∧ lower_char c4 = "i"%char.
Proof.
  split.
  - destruct w as [|c1 [|c2 [|c3 [|c4 [|c5 w]]]]]; simpl; intros H; try discriminate H.
    injection H as H1 H2 H3 H4. by exists c1, c2, c3, c4.
  - intros (c1 & c2 & c3 & c4 & -> & H1 & H2 & H3 & H4). simpl. congruence.
Qed.

Lemma xorb_true_r_inv b : xorb b true = true → b = false.
Proof. by destruct b. Qed.

Lemma xorb_true_l_inv b : xorb true b = true → b = false.
Proof. by destruct b. Qed.

Lemma match_word_at_heli prev s :
  match_word_at "heli" prev s = true ↔
  ∃ w post, s = w +:+ post ∧ lower_str w = "heli" ∧
            is_word prev = false ∧ is_word (head_char post) = false.
Proof.
  split.
  - destruct s as [|c1 [|c2 [|c3 [|c4 rest]]]]; unfold match_word_at; simpl;
      rewrite ?andb_false_r; try done;
      repeat match goal with
             | |- context [Ascii.eqb ?a ?b] => destruct (Ascii.eqb_spec a b)
             end; simpl; rewrite ?andb_false_r; try done.
    intros [Hb1 Hb2]%andb_true_iff.
    exists (String c1 (String c2 (String c3 (String c4 EmptyString)))), rest.
    split; [done|]. split; [simpl; congruence|].
    unfold word_boundary in *. simpl in Hb1, Hb2.
    rewrite lower_h_word in Hb1 by done. rewrite lower_i_word in Hb2 by done.
    split; [by apply xorb_true_r_inv|by apply xorb_true_l_inv].
  - intros (w & post & -> & Hw & Hprev & Hpost).
    apply lower_str_heli in Hw as (c1 & c2 & c3 & c4 & -> & H1 & H2 & H3 & H4).
    unfold match_word_at. simpl. rewrite H1, H2, H3, H4. simpl.
    change (EmptyString +:+ post) with post.
    unfold word_boundary. rewrite Hprev, Hpost. simpl.
    rewrite (lower_h_word c1), (lower_i_word c4) by done. done.
Qed.

Lemma search_word_heli prev s :
  search_word "heli" prev s = true ↔
  ∃ pre w post,
    s = pre +:+ w +:+ post ∧ lower_str w = "heli" ∧
    is_word (last_char prev pre) = false ∧ is_word (head_char post) = false.
Proof.
  revert prev. induction s as [|c s IH]; intros prev.
  - simpl. rewrite orb_false_r, match_word_at_heli. split.
    + intros (w & post & Hs & Hw & Hp & Hq). by exists EmptyString, w, post.
    + intros (pre & w & post & Hs & Hw & Hp & Hq).
      destruct pre; [|discriminate Hs]. by exists w, post.
  - simpl. rewrite orb_true_iff, match_word_at_heli, IH. split.
    + intros [(w & post & Hs & Hw & Hp & Hq)|(pre & w & post & Hs & Hw & Hp & Hq)].
      * by exists EmptyString, w, post.
      * exists (String c pre), w, post. simpl. by rewrite Hs.
    + intros (pre & w & post & Hs & Hw & Hp & Hq). destruct pre as [|c' pre].
      * left. by exists w, post.
      * right. simpl in Hs. injection Hs as -> ->. by exists pre, w, post.
Qed.

Lemma name_contains_heli_spec item_name :
  name_contains_heli item_name = true ↔ has_whole_word "heli" (astype_str item_name).
Proof. apply search_word_heli. Qed.

Lemma resolve_supplier_cases heli_set tvh_set code item_name :
  let heli := code ∈ heli_set ∨ has_whole_word "heli" (astype_str item_name) in
  (heli ∧ resolve_supplier heli_set tvh_set code item_name = "HELI") ∨
  (¬ heli ∧ code ∈ tvh_set ∧ resolve_supplier heli_set tvh_set code item_name = "TVH") ∨
  (¬ heli ∧ (code ∉ tvh_set) ∧
   resolve_supplier heli_set tvh_set code item_name = "NACIONAL").
Proof.
  intros heli. unfold resolve_supplier.
  destruct (name_contains_heli item_name) eqn:Hn.
  { left. rewrite orb_true_r. split; [|done]. right. by apply name_contains_heli_spec. }
  rewrite orb_false_r.
  assert (¬ has_whole_word "heli" (astype_str item_name)) as Hnw.
  { intros Hw%name_contains_heli_spec. congruence. }
  repeat case_bool_decide; simpl;
    first [ left; split; [by left|done]
          | right; left; split; [intros [?|?]; done|by split]
          | right; right; split; [intros [?|?]; done|by split] ].
Qed.

Lemma helical_no_match : name_contains_heli (Some "HELICAL") = false.
Proof. vm_compute. reflexivity. Qed.

Lemma heli_pump_match : name_contains_heli (Some "HELI PUMP") = true.
Proof. vm_compute. reflexivity. Qed.

(** C6: the supplier is HELI when the code is in the HELI set or the name
    holds the whole word heli in any case, else TVH when the code is in the
    TVH set, else NACIONAL; HELICAL does not count as heli, HELI PUMP does. *)
Theorem supplier_resolution (prices : list price) (issues : list move)
    (heli_set tvh_set : option (gset string)) (lt_map_cfg : option (gmap string Z)) :
  NoDup (p_itemcode <$> prices) →
  name_contains_heli (Some "HELICAL") = false ∧
  name_contains_heli (Some "HELI PUMP") = true ∧
  (∀ item_name,
     name_contains_heli item_name = true ↔ has_whole_word "heli" (astype_str item_name)) ∧
  ∃ rows,
    master_table prices issues heli_set tvh_set lt_map_cfg = Ok rows ∧
    item_code <$> rows = group_keys (itemcode <$> issues) ∧
    ∀ r, r ∈ rows →
      let in_heli := item_code r ∈ default ∅ heli_set in
      let in_tvh := item_code r ∈ default ∅ tvh_set in
      let heli := in_heli ∨ has_whole_word "heli" (astype_str (item_name r)) in
      (supplier r = "HELI" ↔ heli) ∧
      (supplier r = "TVH" ↔ ¬ heli ∧ in_tvh) ∧
      (supplier r = "NACIONAL" ↔ ¬ heli ∧ ¬ in_tvh).
Proof.
  intros Hnd.
  split; [apply helical_no_match|]. split; [apply heli_pump_match|].
  split; [apply name_contains_heli_spec|].
  eexists. split; [by apply master_table_ok|].
  split; [rewrite master_of_item_code; apply mens_keys|].
  intros r Hr. apply list_elem_of_fmap in Hr as ([k series] & -> & Hrow).
  simpl.
  set (name := agg_lookup (abc_table prices issues) k ≫= λ r, a_itemname (ab_agg r)).
  destruct (resolve_supplier_cases (default ∅ heli_set) (default ∅ tvh_set) k name)
    as [[Hh ->]|[(Hh & Ht & ->)|(Hh & Ht & ->)]];
    repeat split; intros; try done; try tauto.
Qed.

Lemma supplier_resolution_witness :
  name_contains_heli (Some "HELICAL") = false ∧
  name_contains_heli (Some "HELI PUMP") = true ∧
  (∀ item_name,
     name_contains_heli item_name = true ↔ has_whole_word "heli" (astype_str item_name)) ∧
  ∃ rows,
    master_table three_prices three_skus None None None = Ok rows ∧
    item_code <$> rows = group_keys (itemcode <$> three_skus) ∧
    ∀ r, r ∈ rows →
      let in_heli := item_code r ∈ default (∅ : gset string) None in
      let in_tvh := item_code r ∈ default (∅ : gset string) None in
      let heli := in_heli ∨ has_whole_word "heli" (astype_str (item_name r)) in
      (supplier r = "HELI" ↔ heli) ∧
      (supplier r = "TVH" ↔ ¬ heli ∧ in_tvh) ∧
      (supplier r = "NACIONAL" ↔ ¬ heli ∧ ¬ in_tvh).
Proof.
  apply (supplier_resolution three_prices three_skus None None None).
  apply (bool_decide_unpack _). vm_compute. exact I.
Defined.

(** ** Output tables *)

Lemma records_keys {row} (to_record : row → list (string * value)) (t : table row) rec :
  rec ∈ records to_record t →
  ∃ r, r ∈ tb_rows t ∧ rec.*1 = filter (λ c, c ∈ tb_columns t) ((to_record r).*1).
Proof.
  unfold records. intros (r & -> & Hr)%list_elem_of_fmap. exists r. split; [done|].
  generalize (to_record r). intros l.
  induction l as [|[k v] l IH]; [done|].
  rewrite fmap_cons, !filter_cons. simpl.
  destruct (decide (k ∈ tb_columns t)); simpl; [f_equal|]; exact IH.
Qed.

Lemma master_record_keys r : (master_record r).*1 = master_columns.
Proof. reflexivity. Qed.

Lemma alert_record_keys r : (alert_record r).*1 = master_columns ++ ["SuggestedOrderQty"].
Proof. unfold alert_record. rewrite fmap_app, master_record_keys. done. Qed.

Lemma master_out_columns :
  filter (λ c, c ∉ ["supplier"]) master_columns
  = [ "item_code"; "item_name"; "monthly_mean"; "monthly_std"; "annual_qty"; "ABC";
      "XYZ"; "unit_cost"; "ACV"; "z_level"; "lead_time_days"; "SS"; "ROP"; "EOQ";
      "SMIN"; "SMAX"; "OnHand"; "BelowROP" ].
Proof. vm_compute. reflexivity. Qed.

Lemma run_ok prices issues heli_set tvh_set lt_map_cfg master :
  master_table prices issues heli_set tvh_set lt_map_cfg = Ok master →
  ∃ out,
    run prices issues heli_set tvh_set lt_map_cfg = Ok out ∧
    monthly_out out = mens issues ∧
    tb_rows (master_out out) = stable_sort master_before master ∧
    tb_columns (master_out out) = filter (λ c, c ∉ ["supplier"]) master_columns ∧
    tb_columns (alerts_out out) = tb_columns (master_out out) ++ ["SuggestedOrderQty"] ∧
    al_master <$> tb_rows (alerts_out out)
    = filter (λ r, BelowROP r = true) (tb_rows (master_out out)) ∧
    ∀ a, a ∈ tb_rows (alerts_out out) →
         SuggestedOrderQty a
         = (λ smax, clip_lower 0 (smax - OnHand (al_master a))) <$> SMAX (al_master a).
Proof.
  intros Hm. unfold run. rewrite Hm. simpl. eexists. split; [done|]. simpl.
  repeat split; try done.
  - rewrite <- list_fmap_compose. simpl. apply list_fmap_id.
  - intros a Ha. apply list_elem_of_fmap in Ha as (r & -> & _). done.
Qed.

Lemma master_supplier_values prices issues heli_set tvh_set lt_map_cfg master r :
  master_table prices issues heli_set tvh_set lt_map_cfg = Ok master →
  r ∈ master →
  supplier r ∈ ["HELI"; "TVH"; "NACIONAL"] ∧
  lead_time_days r = resolve_lead_time lt_map_cfg (supplier r).
Proof.
  unfold master_table. destruct (reindex_prices _) as [f|e]; [|done]. simpl.
  intros [= <-] Hr. apply list_elem_of_fmap in Hr as ([k series] & -> & _).
  split; [|done]. simpl.
  set (name := agg_lookup (abc_table prices issues) k ≫= λ r, a_itemname (ab_agg r)).
  destruct (resolve_supplier_cases (default ∅ heli_set) (default ∅ tvh_set) k name)
    as [[_ ->]|[(_ & _ & ->)|(_ & _ & ->)]].
  - left.
  - right. left.
  - right. right. left.
Qed.

(** C10, as the code has it: every SKU gets a supplier among HELI, TVH and
    NACIONAL, which fixes its lead time, but the per-SKU table and the alert
    subset are written without the supplier column. *)
Theorem outputs_hide_supplier (prices : list price) (issues : list move)
    (heli_set tvh_set : option (gset string)) (lt_map_cfg : option (gmap string Z)) :
  NoDup (p_itemcode <$> prices) →
  ∃ master out,
    master_table prices issues heli_set tvh_set lt_map_cfg = Ok master ∧
    run prices issues heli_set tvh_set lt_map_cfg = Ok out ∧
    item_code <$> master = group_keys (itemcode <$> issues) ∧
    tb_rows (master_out out) ≡ₚ master ∧
    al_master <$> tb_rows (alerts_out out)
    = filter (λ r, BelowROP r = true) (tb_rows (master_out out)) ∧
    (∀ r, r ∈ master →
       supplier r ∈ ["HELI"; "TVH"; "NACIONAL"] ∧
       lead_time_days r = resolve_lead_time lt_map_cfg (supplier r)) ∧
    (∀ rec, rec ∈ records master_record (master_out out) →
       rec.*1 = [ "item_code"; "item_name"; "monthly_mean"; "monthly_std"; "annual_qty";
                  "ABC"; "XYZ"; "unit_cost"; "ACV"; "z_level"; "lead_time_days"; "SS";
                  "ROP"; "EOQ"; "SMIN"; "SMAX"; "OnHand"; "BelowROP" ]) ∧
    (∀ rec, rec ∈ records alert_record (alerts_out out) →
       rec.*1 = [ "item_code"; "item_name"; "monthly_mean"; "monthly_std"; "annual_qty";
                  "ABC"; "XYZ"; "unit_cost"; "ACV"; "z_level"; "lead_time_days"; "SS";
                  "ROP"; "EOQ"; "SMIN"; "SMAX"; "OnHand"; "BelowROP";
                  "SuggestedOrderQty" ]).
Proof.
  intros Hnd.
  pose proof (master_table_ok prices issues heli_set tvh_set lt_map_cfg Hnd) as Hm.
  destruct (run_ok _ _ _ _ _ _ Hm) as (out & Hrun & _ & Hrows & Hcols & Hacols & Hal & _).
  eexists _, out. split; [exact Hm|]. split; [done|].
  split; [rewrite master_of_item_code; apply mens_keys|].
  split; [rewrite Hrows; apply stable_sort_perm|].
  split; [done|].
  split; [intros r Hr; by eapply master_supplier_values|].
  rewrite master_out_columns in Hcols.
  split.
  - intros rec Hrec. apply records_keys in Hrec as (r & _ & ->).
    rewrite master_record_keys, Hcols. vm_compute. reflexivity.
  - intros rec Hrec. apply records_keys in Hrec as (r & _ & ->).
    rewrite alert_record_keys, Hacols, Hcols. vm_compute. reflexivity.
Qed.

Lemma outputs_hide_supplier_witness :
  ∃ master out,
    master_table three_prices three_skus None None None = Ok master ∧
    run three_prices three_skus None None None = Ok out ∧
    item_code <$> master = group_keys (itemcode <$> three_skus) ∧
    tb_rows (master_out out) ≡ₚ master ∧
    al_master <$> tb_rows (alerts_out out)
    = filter (λ r, BelowROP r = true) (tb_rows (master_out out)) ∧
    (∀ r, r ∈ master →
       supplier r ∈ ["HELI"; "TVH"; "NACIONAL"] ∧
       lead_time_days r = resolve_lead_time None (supplier r)) ∧
    (∀ rec, rec ∈ records master_record (master_out out) →
       rec.*1 = [ "item_code"; "item_name"; "monthly_mean"; "monthly_std"; "annual_qty";
                  "ABC"; "XYZ"; "unit_cost"; "ACV"; "z_level"; "lead_time_days"; "SS";
                  "ROP"; "EOQ"; "SMIN"; "SMAX"; "OnHand"; "BelowROP" ]) ∧
    (∀ rec, rec ∈ records alert_record (alerts_out out) →
       rec.*1 = [ "item_code"; "item_name"; "monthly_mean"; "monthly_std"; "annual_qty";
                  "ABC"; "XYZ"; "unit_cost"; "ACV"; "z_level"; "lead_time_days"; "SS";
                  "ROP"; "EOQ"; "SMIN"; "SMAX"; "OnHand"; "BelowROP";
                  "SuggestedOrderQty" ]).
Proof.
  apply (outputs_hide_supplier three_prices three_skus None None None).
  apply (bool_decide_unpack _). vm_compute. exact I.
Defined.

Lemma records_keys_all {row} (to_record : row → list (string * value)) (t : table row) :
  (λ rec, rec.*1) <$> records to_record t
  = (λ r, filter (λ c, c ∈ tb_columns t) ((to_record r).*1)) <$> tb_rows t.
Proof.
  unfold records. rewrite <- list_fmap_compose. apply list_fmap_ext. intros i r _. simpl.
  generalize (to_record r). intros l.
  induction l as [|[k v] l IH]; [done|].
  rewrite fmap_cons, !filter_cons. simpl.
  destruct (decide (k ∈ tb_columns t)); simpl; [f_equal|]; exact IH.
Qed.

Lemma one_sku_mens :
  mens one_sku = {| pv_columns := [24288%Z]; pv_rows := [("SKU1", [8])] |}.
Proof. vm_compute. repeat (f_equal; try lra). Qed.

(** C10 fails as stated: the records written for the per-SKU table have no
    supplier attribute, and neither has the alert table. *)
Lemma supplier_not_emitted :
  (λ out, ((λ rec, rec.*1) <$> records master_record (master_out out),
           tb_columns (alerts_out out)))
    <$> run [] one_sku None None None
  = Ok ([ [ "item_code"; "item_name"; "monthly_mean"; "monthly_std"; "annual_qty";
            "ABC"; "XYZ"; "unit_cost"; "ACV"; "z_level"; "lead_time_days"; "SS";
            "ROP"; "EOQ"; "SMIN"; "SMAX"; "OnHand"; "BelowROP" ] ],
        [ "item_code"; "item_name"; "monthly_mean"; "monthly_std"; "annual_qty";
          "ABC"; "XYZ"; "unit_cost"; "ACV"; "z_level"; "lead_time_days"; "SS";
          "ROP"; "EOQ"; "SMIN"; "SMAX"; "OnHand"; "BelowROP"; "SuggestedOrderQty" ]).
Proof.
  pose proof (master_table_ok [] one_sku None None None (NoDup_nil_2)) as Hm.
  rewrite one_sku_mens in Hm. simpl in Hm.
  destruct (run_ok _ _ _ _ _ _ Hm) as (out & Hrun & _ & Hrows & Hcols & Hacols & _).
  rewrite Hrun. simpl. f_equal.
  rewrite records_keys_all, Hacols, Hrows, Hcols, master_out_columns. simpl.
  reflexivity.
Qed.

(** ** Input normalisation *)



Lemma NoDup_drop_duplicates l : NoDup (p_itemcode <$> drop_duplicates l).
Proof.
  induction l as [|q l IH]; simpl; [constructor|].
  rewrite ?fmap_cons. constructor.
  - rewrite list_elem_of_fmap. intros (p & Hc & Hp).
    apply list_elem_of_filter in Hp as [Hne _]. by destruct Hne.
  - clear -IH. induction (drop_duplicates l) as [|x xs IHx]; [constructor|].
    rewrite filter_cons. rewrite fmap_cons in IH. apply NoDup_cons in IH as [Hx Hxs].
    destruct (decide _); [|by apply IHx].
    rewrite fmap_cons. constructor; [|by apply IHx].
    rewrite list_elem_of_fmap. intros (p & Hc & Hp).
    apply list_elem_of_filter in Hp as [_ Hp]. apply Hx.
    rewrite Hc. by apply list_elem_of_fmap_2.
Qed.






Lemma run_rows_cover prices issues heli_set tvh_set lt_map_cfg :
  NoDup (p_itemcode <$> prices) →
  ∃ out,
    run prices issues heli_set tvh_set lt_map_cfg = Ok out ∧
    ∀ m, m ∈ issues →
      ∃ r, r ∈ tb_rows (master_out out) ∧ item_code r = itemcode m ∧
           unit_cost r = unit_price prices (itemcode m).
Proof.
  intros Hnd.
  pose proof (master_table_ok prices issues heli_set tvh_set lt_map_cfg Hnd) as Hm.
  destruct (run_ok _ _ _ _ _ _ Hm) as (out & Hrun & _ & Hrows & _).
  exists out. split; [done|]. intros m Hm'.
  assert (itemcode m ∈ (pv_rows (mens issues)).*1) as Hk.
  { rewrite mens_keys, elem_of_group_keys. by apply list_elem_of_fmap_2. }
  apply list_elem_of_fmap in Hk as ([k series] & Hk & Hrow). simpl in Hk. subst k.
  eexists. split.
  - rewrite Hrows, elem_of_stable_sort. apply list_elem_of_fmap_2. exact Hrow.
  - simpl. split; [done|]. apply master_unit_cost.
Qed.



Example sample_frames_normalized :
  (λ ps : list price, (λ p, (p_itemcode p, p_itemname p)) <$> ps)
    <$> normalize_prices sample_price_frame
  = Ok [("SKU1", Some "HELI PUMP"); ("SKU2", None)] ∧
  (λ ms : list move, (λ m, (itemcode m, mdate m)) <$> ms)
    <$> normalize_moves sample_move_frame
  = Ok [("SKU1", jan15); ("SKU2", mar10)].
Proof. split; vm_compute; reflexivity. Qed.


(** * Further properties of the pipeline *)

(** ** Cumulative share and classes along the ranking *)









Lemma StronglySorted_lookup_lt {A} (R : relation A) (l : list A) i j x y :
  StronglySorted R l → (i < j)%nat → l !! i = Some x → l !! j = Some y → R x y.
Proof.
  intros Hs. revert i j. induction Hs as [|a l Hs IH Ha]; intros i j Hij Hi Hj.
  - by rewrite lookup_nil in Hi.
  - destruct j as [|j]; [lia|]. simpl in Hj. destruct i as [|i]; simpl in Hi.
    + injection Hi as ->. rewrite Forall_forall in Ha. apply Ha.
      apply list_elem_of_lookup. eauto.
    + apply (IH i j); [lia|done|done].
Qed.



(** ** Quantities and values are conserved *)

Lemma Rsum_cons x l : Rsum (x :: l) = x + Rsum l.
Proof. reflexivity. Qed.

Lemma Rsum_fmap_plus {A} (f g : A → R) l :
  Rsum ((λ b, f b + g b) <$> l) = Rsum (f <$> l) + Rsum (g <$> l).
Proof.
  induction l as [|x l IH]; [simpl; lra|].
  rewrite !fmap_cons, !Rsum_cons, IH. lra.
Qed.

Lemma Rsum_fmap_scale {A} (f : A → R) c l :
  Rsum ((λ m, f m * c) <$> l) = Rsum (f <$> l) * c.
Proof.
  induction l as [|x l IH]; [simpl; lra|].
  rewrite !fmap_cons, !Rsum_cons, IH. lra.
Qed.

Lemma Rsum_indicator (x : Z) v cols :
  NoDup cols →
  Rsum ((λ b, if decide (x = b) then v else 0) <$> cols) = if decide (x ∈ cols) then v else 0.
Proof.
  induction 1 as [|b cols Hb Hnd IH].
  - rewrite fmap_nil. destruct (decide (x ∈ [])) as [H|H]; [by apply elem_of_nil in H|done].
  - rewrite fmap_cons, Rsum_cons, IH.
    destruct (decide (x = b)) as [Heq|Hne], (decide (x ∈ cols)) as [Hin|Hin],
      (decide (x ∈ b :: cols)) as [Hin'|Hin']; try lra; exfalso.
    + subst. done.
    + subst. done.
    + apply Hin'. subst. left.
    + apply Hin'. by right.
    + apply elem_of_cons in Hin' as [?|?]; done.
Qed.

Lemma month_total_cons m g b :
  month_total (m :: g) b
  = (if decide (month_index (mdate m) = b) then qty m else 0) + month_total g b.
Proof.
  unfold month_total. rewrite filter_cons.
  destruct (decide (month_index (mdate m) = b)); [rewrite fmap_cons, Rsum_cons|]; lra.
Qed.

Lemma month_totals_sum g cols :
  NoDup cols →
  (∀ m, m ∈ g → month_index (mdate m) ∈ cols) →
  Rsum ((λ b, month_total g b) <$> cols) = Rsum (qty <$> g).
Proof.
  intros Hnd. induction g as [|m g IH]; intros Hin.
  - simpl. apply Rsum_zero, Forall_fmap, Forall_forall. by intros.
  - rewrite (list_fmap_ext _
               (λ b, (if decide (month_index (mdate m) = b) then qty m else 0)
                     + month_total g b))
      by (intros i b _; apply month_total_cons).
    rewrite (Rsum_fmap_plus (λ b, if decide (month_index (mdate m) = b) then qty m else 0)
                            (λ b, month_total g b)).
    rewrite Rsum_indicator by done.
    rewrite decide_True by (apply Hin; left).
    rewrite IH; [rewrite fmap_cons, Rsum_cons; lra|]. intros m' Hm'. apply Hin. by right.
Qed.

Lemma mens_columns_NoDup issues : NoDup (pv_columns (mens issues)).
Proof. unfold mens, unstack_fill0. simpl. apply stable_sort_NoDup, NoDup_unique. Qed.

Lemma mens_row_total issues k series :
  (k, series) ∈ pv_rows (mens issues) →
  Rsum series = Rsum (qty <$> filter (λ m, itemcode m = k) issues).
Proof.
  intros Hrow. apply elem_of_mens_rows in Hrow as [Hk ->].
  apply month_totals_sum; [apply mens_columns_NoDup|].
  intros m Hm. apply list_elem_of_filter in Hm as [Hmk Hm].
  apply elem_of_mens_columns. exists k. split; [done|].
  apply elem_of_month_span. exists (month_index (mdate m)), (month_index (mdate m)).
  assert (month_index (mdate m)
          ∈ (λ m, month_index (mdate m)) <$> filter (λ x, itemcode x = k) issues).
  { apply list_elem_of_fmap. exists m. split; [done|]. by apply list_elem_of_filter. }
  repeat split; [done|done|lia|lia].
Qed.

Lemma aggregate_unidades prices issues r :
  NoDup (p_itemcode <$> prices) →
  r ∈ aggregate prices issues →
  a_unidades r = Rsum (qty <$> filter (λ m, itemcode m = a_itemcode r) issues).
Proof.
  intros Hnd. rewrite aggregate_perm, elem_of_groupby_agg. intros [_ ->]. simpl.
  rewrite merge_left_join by by apply prepare_prices_codes.
  rewrite (filter_fmap_comm _ (λ x, c_itemcode x = a_itemcode r)). simpl.
  by rewrite <- list_fmap_compose.
Qed.

Lemma agg_lookup_found prices issues k :
  NoDup (p_itemcode <$> prices) →
  k ∈ itemcode <$> issues →
  ∃ a, agg_lookup (abc_table prices issues) k = Some a ∧
       a ∈ abc_table prices issues ∧ a_itemcode (ab_agg a) = k.
Proof.
  intros Hnd Hk. destruct (aggregate_codes prices issues Hnd) as [_ Hcodes].
  apply Hcodes in Hk. rewrite <- abc_table_agg, <- list_fmap_compose in Hk.
  apply list_elem_of_fmap in Hk as (a0 & Hk0 & Ha0).
  unfold agg_lookup.
  destruct (filter _ (abc_table prices issues)) as [|a t] eqn:Hf.
  - exfalso. eapply (filter_nil_not_elem_of _ _ a0 Hf); [by symmetry|done].
  - exists a. split; [done|].
    assert (a ∈ filter (λ r, a_itemcode (ab_agg r) = k) (abc_table prices issues)) as Ha
      by (rewrite Hf; left).
    by apply list_elem_of_filter in Ha as [? ?].
Qed.

(** The annual quantity of a SKU is the total of its records, its ACV is the
    value it was ranked by, and its class is the class of that ranking row:
    the monthly bucketing loses nothing. *)
Theorem volume_and_value_agree (prices : list price) (issues : list move)
    (heli_set tvh_set : option (gset string)) (lt_map_cfg : option (gmap string Z)) :
  NoDup (p_itemcode <$> prices) →
  ∃ rows,
    master_table prices issues heli_set tvh_set lt_map_cfg = Ok rows ∧
    ∀ r, r ∈ rows →
      annual_qty r = Rsum (qty <$> filter (λ m, itemcode m = item_code r) issues) ∧
      ACV r = Rsum ((λ m, qty m * unit_price prices (item_code r))
                      <$> filter (λ m, itemcode m = item_code r) issues) ∧
      ∃ a, a ∈ abc_table prices issues ∧
           a_itemcode (ab_agg a) = item_code r ∧
           a_unidades (ab_agg a) = annual_qty r ∧
           a_valor (ab_agg a) = ACV r ∧
           ABC r = Some (ab_ABC a) ∧
           item_name r = a_itemname (ab_agg a).
Proof.
  intros Hnd. eexists. split; [by apply master_table_ok|].
  intros r Hr. apply list_elem_of_fmap in Hr as ([k series] & -> & Hrow). simpl.
  pose proof (mens_row_total _ _ _ Hrow) as Htot.
  assert (k ∈ itemcode <$> issues) as Hk by by apply elem_of_mens_rows in Hrow as [? _].
  destruct (agg_lookup_found prices issues k Hnd Hk) as (a & Hlook & Ha & Hak).
  assert (Rsum series * fillna 1 (pr_avgprice <$> head (matching (prepare_prices prices issues) k))
          = Rsum ((λ m, qty m * unit_price prices k) <$> filter (λ m, itemcode m = k) issues))
    as Hacv.
  { rewrite master_unit_cost, Htot. symmetry.
    apply (Rsum_fmap_scale qty (unit_price prices k)). }
  split; [done|]. split; [done|].
  exists a. rewrite Hlook. simpl. split; [done|]. split; [done|].
  pose proof (abc_table_elem_agg _ _ _ Ha) as Hagg.
  split; [|split; [|done]].
  - rewrite (aggregate_unidades _ _ _ Hnd Hagg), Hak. by rewrite Htot.
  - apply (aggregate_valor _ _ _ Hnd) in Hagg as [_ ->]. rewrite Hak, Hacv. done.
Qed.

Lemma volume_and_value_agree_witness :
  ∃ rows,
    master_table three_prices three_skus None None None = Ok rows ∧
    ∀ r, r ∈ rows →
      annual_qty r = Rsum (qty <$> filter (λ m, itemcode m = item_code r) three_skus) ∧
      ACV r = Rsum ((λ m, qty m * unit_price three_prices (item_code r))
                      <$> filter (λ m, itemcode m = item_code r) three_skus) ∧
      ∃ a, a ∈ abc_table three_prices three_skus ∧
           a_itemcode (ab_agg a) = item_code r ∧
           a_unidades (ab_agg a) = annual_qty r ∧
           a_valor (ab_agg a) = ACV r ∧
           ABC r = Some (ab_ABC a) ∧
           item_name r = a_itemname (ab_agg a).
Proof.
  apply (volume_and_value_agree three_prices three_skus None None None).
  apply (bool_decide_unpack _). vm_compute. exact I.
Defined.

(** ** Failure of run *)




(** ** From the files to the tables *)

Lemma normalize_prices_NoDup df prices :
  normalize_prices df = Ok prices → NoDup (p_itemcode <$> prices).
Proof.
  unfold normalize_prices. case_decide; [|done]. intros [= <-].
  apply NoDup_drop_duplicates.
Qed.

Lemma load_inputs_prices_NoDup a prices issues :
  load_inputs a = Ok (prices, issues) → NoDup (p_itemcode <$> prices).
Proof.
  unfold load_inputs.
  destruct (in_prices a) as [pdf|]; simpl.
  - destruct (normalize_prices pdf) as [ps|e] eqn:Hp; simpl; [|done].
    apply normalize_prices_NoDup in Hp.
    destruct (in_guias a), (in_salidas a), (in_issues a); simpl;
      repeat match goal with
             | |- context [normalize_moves ?f] => destruct (normalize_moves f); simpl
             end; intros [= <- <-] || done; done.
  - destruct (in_guias a), (in_salidas a), (in_issues a); simpl;
      repeat match goal with
             | |- context [normalize_moves ?f] => destruct (normalize_moves f); simpl
             end; intros [= <- <-] || done; constructor.
Qed.

(** Whatever the files hold, the program ends in one of three ways: with
    the error of the loading step; with SystemExit when no valid movement is
    left; or with tables that have a row for every SKU of the movements, so
    never with empty tables. *)
Theorem main_files_outcome (a : input_files) (heli tvh : read_result supplier_frame)
    (lt_map_cfg : option (gmap string Z)) :
  match load_inputs a with
  | Err e => main_files a heli tvh lt_map_cfg = Err e
  | Ok (prices, []) =>
      main_files a heli tvh lt_map_cfg
      = Err (SystemExit "No hay movimientos válidos tras normalización")
  | Ok (prices, issues) =>
      ∃ out,
        main_files a heli tvh lt_map_cfg = Ok out ∧
        tb_rows (master_out out) ≠ [] ∧
        pv_rows (monthly_out out) ≠ [] ∧
        ∀ m, m ∈ issues → ∃ r, r ∈ tb_rows (master_out out) ∧ item_code r = itemcode m
  end.
Proof.
  unfold main_files.
  destruct (load_inputs a) as [[prices issues]|e] eqn:Hl; simpl; [|done].
  destruct issues as [|m issues]; [done|].
  apply load_inputs_prices_NoDup in Hl.
  destruct (run_rows_cover prices (m :: issues)
              (Some (load_supplier_sets heli tvh).1) (Some (load_supplier_sets heli tvh).2)
              lt_map_cfg Hl) as (out & Hrun & Hcover).
  exists out. split; [exact Hrun|].
  pose proof (master_table_ok prices (m :: issues)
                (Some (load_supplier_sets heli tvh).1) (Some (load_supplier_sets heli tvh).2)
                lt_map_cfg Hl) as Hm.
  destruct (run_ok _ _ _ _ _ _ Hm) as (out' & Hrun' & Hmens & _).
  rewrite Hrun in Hrun'. injection Hrun' as <-.
  split; [|split].
  - destruct (Hcover m) as (r & Hr & _); [left|]. intros Hnil. rewrite Hnil in Hr.
    by apply elem_of_nil in Hr.
  - rewrite Hmens. intros Hnil.
    pose proof (mens_keys (m :: issues)) as Hk. rewrite Hnil in Hk.
    assert (itemcode m ∈ group_keys (itemcode <$> m :: issues)) as Hin.
    { rewrite elem_of_group_keys. left. }
    rewrite <- Hk in Hin. by apply elem_of_nil in Hin.
  - intros m' Hm'. destruct (Hcover m' Hm') as (r & Hr & Hc & _). by exists r.
Qed.

Example sample_files_loaded :
  (λ x : list price * list move, (p_itemcode <$> x.1, itemcode <$> x.2))
    <$> load_inputs sample_files
  = Ok (["SKU1"; "SKU2"], ["SKU1"; "SKU2"; "SKU1"]).
Proof. vm_compute. reflexivity. Qed.

(** ** The utilities on every input *)

Lemma Z_BY_ABC_lookup_cases a :
  Z_BY_ABC !! a
  = if decide (a = "A") then Some 1.96
    else if decide (a = "B") then Some 1.65
    else if decide (a = "C") then Some 1.28 else None.
Proof.
  unfold Z_BY_ABC. repeat case_decide; subst; try reflexivity.
  rewrite !lookup_insert_ne by done. apply lookup_singleton_ne. done.
Qed.

Lemma Z_BY_XYZ_lookup_cases x :
  Z_BY_XYZ !! x
  = if decide (x = "X") then Some 1.65
    else if decide (x = "Y") then Some 1.44
    else if decide (x = "Z") then Some 1.28 else None.
Proof.
  unfold Z_BY_XYZ. repeat case_decide; subst; try reflexivity.
  rewrite !lookup_insert_ne by done. apply lookup_singleton_ne. done.
Qed.

(** On every pair of labels, known or not, the service level is 1.96 for
    class A, follows the XYZ label only for class C (1.65, 1.44, or 1.28 for
    any other label) and is 1.65 for every other ABC label, the text nan
    included; so it always lies between 1.28 and 1.96. *)
Theorem pick_z_every_label (a x : string) :
  pick_z a x
  = (if decide (a = "A") then 1.96
     else if decide (a = "C") then
       if decide (x = "X") then 1.65 else if decide (x = "Y") then 1.44 else 1.28
     else 1.65) ∧
  1.28 <= pick_z a x <= 1.96.
Proof.
  unfold pick_z, Z_DEFAULT. rewrite Z_BY_ABC_lookup_cases, Z_BY_XYZ_lookup_cases.
  unfold py_max. repeat case_decide; subst; try discriminate; split; lra.
Qed.

Lemma eoq_nonneg D S H C : 0 <= eoq D S H C.
Proof.
  unfold eoq. case_decide; [lra|]. apply sqrt_pos.
Qed.

(** With positive demand, order cost and holding cost per unit, the order
    quantity is positive, its square times the holding cost is twice demand
    times order cost, the yearly ordering cost equals the yearly holding cost
    there, and no other positive lot has a lower sum of the two. *)
Theorem eoq_balances_costs (D S H C : R) :
  0 < D → 0 < S → 0 < H * C →
  let Q := eoq D S H C in
  0 < Q ∧
  Q * Q * (H * C) = 2 * D * S ∧
  D / Q * S = Q / 2 * (H * C) ∧
  ∀ q, 0 < q → D / Q * S + Q / 2 * (H * C) <= D / q * S + q / 2 * (H * C).
Proof.
  intros HD HS HHC Q. unfold Q. rewrite eoq_positive by done.
  set (K := H * C) in *.
  assert (0 < 2 * D * S / K) as Hpos.
  { apply Rdiv_lt_0_compat; [|done]. apply Rmult_lt_0_compat; lra. }
  set (q0 := sqrt (2 * D * S / K)).
  assert (0 < q0) as Hq0 by by apply sqrt_lt_R0.
  assert (q0 * q0 = 2 * D * S / K) as Hsq by (apply sqrt_sqrt; lra).
  assert (q0 * q0 * K = 2 * D * S) as Hsq'.
  { rewrite Hsq. field. lra. }
  assert (D * S = q0 * q0 * K / 2) as HDS by lra.
  split; [done|]. split; [done|].
  assert (∀ q, 0 < q → D / q * S = q0 * q0 * K / (2 * q)) as Hord.
  { intros q Hq. replace (D / q * S) with (D * S / q) by (field; lra).
    rewrite HDS. field. lra. }
  split.
  - rewrite (Hord q0 Hq0). field. lra.
  - intros q Hq. rewrite (Hord q0 Hq0), (Hord q Hq).
    replace (q0 * q0 * K / (2 * q0) + q0 / 2 * K) with (q0 * K) by (field; lra).
    assert (q0 * q0 * K / (2 * q) + q / 2 * K - q0 * K
            = K / (2 * q) * ((q - q0) * (q - q0))) as Hdiff by (field; lra).
    assert (0 <= K / (2 * q) * ((q - q0) * (q - q0))).
    { apply Rmult_le_pos.
      - apply Rlt_le, Rdiv_lt_0_compat; lra.
      - apply Rle_0_sqr. }
    lra.
Qed.

Lemma eoq_balances_costs_witness :
  let Q := eoq 8 15000 0.25 4 in
  0 < Q ∧
  Q * Q * (0.25 * 4) = 2 * 8 * 15000 ∧
  8 / Q * 15000 = Q / 2 * (0.25 * 4) ∧
  ∀ q, 0 < q → 8 / Q * 15000 + Q / 2 * (0.25 * 4) <= 8 / q * 15000 + q / 2 * (0.25 * 4).
Proof. apply (eoq_balances_costs 8 15000 0.25 4); lra. Defined.

(** The order quantity is never negative, is 0 exactly when demand, order
    cost or holding cost per unit is not positive, and grows with demand. *)
Theorem eoq_sign_and_growth (D D' S H C : R) :
  0 <= eoq D S H C ∧
  (eoq D S H C = 0 ↔ D <= 0 ∨ S <= 0 ∨ H * C <= 0) ∧
  (D <= D' → eoq D S H C <= eoq D' S H C).
Proof.
  split; [apply eoq_nonneg|]. split.
  - split.
    + intros H0. destruct (decide (D <= 0 ∨ S <= 0 ∨ H * C <= 0)) as [|Hn]; [done|].
      exfalso. rewrite eoq_positive in H0 by lra.
      assert (0 < 2 * D * S / (H * C)).
      { apply Rdiv_lt_0_compat; [|lra]. apply Rmult_lt_0_compat; lra. }
      apply sqrt_eq_0 in H0; lra.
    + intros Hd. apply eoq_degenerate. lra.
  - intros HDD.
    destruct (decide (0 < D ∧ 0 < S ∧ 0 < H * C)) as [(HD & HS & HK)|Hn].
    + rewrite !eoq_positive by lra. apply sqrt_le_1_alt.
      apply Rmult_le_compat_r; [apply Rlt_le, Rinv_0_lt_compat; lra|]. nra.
    + rewrite (eoq_degenerate D) by done. apply eoq_nonneg.
Qed.

(** ** XYZ on steady and idle SKUs *)

Lemma xyz_of_cv_values cv : xyz_of_cv cv ∈ ["X"; "Y"; "Z"].
Proof.
  unfold xyz_of_cv.
  destruct (notna cv && nan_gt cv XYZ_CUTS.1 && nan_le cv XYZ_CUTS.2);
    [set_solver|].
  destruct (notna cv && nan_le cv XYZ_CUTS.1); set_solver.
Qed.

Lemma Rsum_constant l v : Forall (λ x, x = v) l → Rsum l = INR (length l) * v.
Proof.
  induction 1 as [|x l -> _ IH].
  - simpl. lra.
  - rewrite Rsum_cons, IH. change (length (v :: l)) with (S (length l)).
    rewrite S_INR. lra.
Qed.

Lemma Rsum_zero_fmap {A} (f : A → R) l : (∀ x, x ∈ l → f x = 0) → Rsum (f <$> l) = 0.
Proof.
  induction l as [|x l IH]; intros Hf; [done|].
  rewrite fmap_cons, Rsum_cons, IH, Hf; [lra|left|].
  intros y Hy. apply Hf. by right.
Qed.

Lemma cv_of_constant l v :
  Forall (λ x, x = v) l → v ≠ 0 → (2 ≤ length l)%nat → cv_of l = Some 0.
Proof.
  intros Hc Hv Hn. rewrite cv_of_cases. unfold mean, std.
  destruct l as [|x l]; [simpl in Hn; lia|].
  rewrite decide_False by lia.
  assert (0 < INR (length (x :: l))) as Hlen by (apply lt_0_INR; simpl; lia).
  assert (Rsum (x :: l) / INR (length (x :: l)) = v) as Hmean.
  { rewrite (Rsum_constant _ v Hc). field. lra. }
  rewrite Hmean, decide_False by done.
  rewrite Rsum_zero_fmap.
  - f_equal. unfold Rdiv at 2. rewrite Rmult_0_l, sqrt_0. unfold Rdiv. lra.
  - intros y Hy. rewrite Forall_forall in Hc. rewrite (Hc y Hy). lra.
Qed.

Lemma cv_of_short l : (length l < 2)%nat → cv_of l = None.
Proof.
  intros Hn. rewrite cv_of_cases. unfold std. rewrite decide_True by done.
  by destruct (mean l).
Qed.

Lemma cv_of_idle l : Rsum l = 0 → cv_of l = None.
Proof.
  intros H0. rewrite cv_of_cases. unfold mean. destruct l as [|x l]; [done|].
  rewrite H0. unfold Rdiv. rewrite Rmult_0_l.
  destruct (std (x :: l)); [|done]. by rewrite decide_True.
Qed.

(** Every SKU gets one of X, Y, Z.  It is Z when the whole history spans a
    single month or the SKU's total quantity is 0, and X when the SKU moved
    the same non-zero quantity in every month of a history of two months or
    more. *)
Theorem xyz_steady_and_idle (prices : list price) (issues : list move)
    (heli_set tvh_set : option (gset string)) (lt_map_cfg : option (gmap string Z)) :
  NoDup (p_itemcode <$> prices) →
  ∃ rows,
    master_table prices issues heli_set tvh_set lt_map_cfg = Ok rows ∧
    ∀ r, r ∈ rows →
      XYZ r ∈ ["X"; "Y"; "Z"] ∧
      (length (pv_columns (mens issues)) = 1%nat → XYZ r = "Z") ∧
      (annual_qty r = 0 → XYZ r = "Z") ∧
      (∀ v, v ≠ 0 →
         (2 ≤ length (pv_columns (mens issues)))%nat →
         (∀ b, b ∈ pv_columns (mens issues) →
               month_total (filter (λ m, itemcode m = item_code r) issues) b = v) →
         XYZ r = "X").
Proof.
  intros Hnd. eexists. split; [by apply master_table_ok|].
  intros r Hr. apply list_elem_of_fmap in Hr as ([k series] & -> & Hrow).
  cbn [XYZ annual_qty item_code master_of fst snd].
  apply elem_of_mens_rows in Hrow as [_ Hseries].
  split; [apply xyz_of_cv_values|]. split; [|split].
  - intros Hone. rewrite cv_of_short; [done|]. rewrite Hseries, length_fmap. lia.
  - intros H0. by rewrite cv_of_idle.
  - intros v Hv Hn Hconst. rewrite (cv_of_constant _ v); [| |done|].
    + destruct (xyz_of_cv_spec (Some 0)) as [_ Hx].
      destruct (Hx 0 eq_refl) as [HX _]. apply HX. lra.
    + rewrite Hseries. apply Forall_fmap, Forall_forall. intros b Hb. simpl. by apply Hconst.
    + by rewrite Hseries, length_fmap.
Qed.

Lemma xyz_steady_and_idle_witness :
  ∃ rows,
    master_table three_prices one_sku None None None = Ok rows ∧
    ∀ r, r ∈ rows →
      XYZ r ∈ ["X"; "Y"; "Z"] ∧
      (length (pv_columns (mens one_sku)) = 1%nat → XYZ r = "Z") ∧
      (annual_qty r = 0 → XYZ r = "Z") ∧
      (∀ v, v ≠ 0 →
         (2 ≤ length (pv_columns (mens one_sku)))%nat →
         (∀ b, b ∈ pv_columns (mens one_sku) →
               month_total (filter (λ m, itemcode m = item_code r) one_sku) b = v) →
         XYZ r = "X").
Proof.
  apply (xyz_steady_and_idle three_prices one_sku None None None).
  apply (bool_decide_unpack _). vm_compute. exact I.
Defined.

(** ** The policy numbers *)

Lemma std_nonneg l s : std l = Some s → 0 <= s.
Proof.
  unfold std. case_decide; [done|]. intros [= <-]. apply sqrt_pos.
Qed.

Lemma mean_nonneg l m : Forall (λ x, 0 <= x) l → mean l = Some m → 0 <= m.
Proof.
  intros Hl. unfold mean. pose proof (Rsum_nonneg _ Hl) as Hs.
  destruct l as [|x l]; [done|].
  assert (0 < INR (length (x :: l))) as Hn by (apply lt_0_INR; simpl; lia).
  intros Hm. injection Hm as <-.
  apply Rmult_le_pos; [exact Hs|]. by apply Rlt_le, Rinv_0_lt_compat.
Qed.

Lemma month_total_nonneg g b : Forall (λ m, 0 <= qty m) g → 0 <= month_total g b.
Proof.
  intros Hg. unfold month_total. apply Rsum_nonneg, Forall_fmap, Forall_forall.
  intros m Hm. apply list_elem_of_filter in Hm as [_ Hm].
  rewrite Forall_forall in Hg. by apply Hg.
Qed.

Lemma mens_series_nonneg issues k series :
  Forall (λ m, 0 <= qty m) issues →
  (k, series) ∈ pv_rows (mens issues) → Forall (λ x, 0 <= x) series.
Proof.
  intros Hq Hrow. apply elem_of_mens_rows in Hrow as [_ ->].
  apply Forall_fmap, Forall_forall. intros b _. simpl.
  apply month_total_nonneg, Forall_forall. intros m Hm.
  apply list_elem_of_filter in Hm as [_ Hm]. rewrite Forall_forall in Hq. by apply Hq.
Qed.

Lemma pick_z_pos a x : 0 < pick_z a x.
Proof.
  unfold pick_z, Z_DEFAULT. rewrite Z_BY_ABC_lookup_cases, Z_BY_XYZ_lookup_cases.
  unfold py_max. repeat case_decide; lra.
Qed.

Lemma lt_map_default_lookup s :
  lt_map_default !! s
  = if decide (s = "HELI") then Some 90
    else if decide (s = "TVH") then Some 45
    else if decide (s = "NACIONAL") then Some 3 else None.
Proof.
  unfold lt_map_default. repeat case_decide; subst; try reflexivity.
  rewrite !lookup_insert_ne by done. apply lookup_singleton_ne. done.
Qed.

(** Without a lead-time table in the configuration and with non-negative
    quantities, every SKU has lead time 90, 45 or 3 days by supplier, a
    safety stock and a reorder point that are defined with
    0 <= SS <= ROP = SMIN <= SMAX = ROP + EOQ, on-hand stock 0, and it is
    below its reorder point exactly when that point is positive. *)
Theorem policy_with_default_lead_times (prices : list price) (issues : list move)
    (heli_set tvh_set : option (gset string)) :
  NoDup (p_itemcode <$> prices) →
  Forall (λ m, 0 <= qty m) issues →
  ∃ rows,
    master_table prices issues heli_set tvh_set None = Ok rows ∧
    ∀ r, r ∈ rows →
      (supplier r = "HELI" ∧ lead_time_days r = 90 ∨
       supplier r = "TVH" ∧ lead_time_days r = 45 ∨
       supplier r = "NACIONAL" ∧ lead_time_days r = 3) ∧
      OnHand r = 0 ∧ 0 <= EOQ r ∧
      ∃ ss rop,
        SS r = Some ss ∧ ROP r = Some rop ∧ SMIN r = Some rop ∧
        SMAX r = Some (rop + EOQ r) ∧
        0 <= ss <= rop ∧
        (BelowROP r = true ↔ 0 < rop).
Proof.
  intros Hnd Hq. eexists. split; [by apply master_table_ok|].
  intros r Hr.
  pose proof (master_supplier_values _ _ _ _ _ _ r (master_table_ok _ _ heli_set tvh_set None Hnd) Hr)
    as [Hsup Hlead].
  apply list_elem_of_fmap in Hr as ([k series] & Hreq & Hrow).
  pose proof (mens_series_nonneg _ _ _ Hq Hrow) as Hseries.
  assert (0 <= lead_time_days r ∧
          (supplier r = "HELI" ∧ lead_time_days r = 90 ∨
           supplier r = "TVH" ∧ lead_time_days r = 45 ∨
           supplier r = "NACIONAL" ∧ lead_time_days r = 3)) as [Hl0 Hcases].
  { rewrite Hlead. unfold resolve_lead_time. rewrite lt_map_default_lookup.
    rewrite !elem_of_cons in Hsup.
    destruct Hsup as [->|[->|[->|Hsup]]]; [| | |by apply elem_of_nil in Hsup];
      simpl; split; try lra; tauto. }
  split; [exact Hcases|].
  revert Hl0. clear Hcases Hlead Hsup. subst r.
  cbn [lead_time_days OnHand EOQ SS ROP SMIN SMAX BelowROP master_of fst snd].
  set (L := resolve_lead_time None _). intros Hl0.
  split; [done|]. split; [apply eoq_nonneg|].
  rewrite (np_sqrt_nonneg L Hl0). cbn [fmap option_fmap option_map].
  eexists _, _. split; [done|]. split; [done|]. split; [done|]. split; [done|].
  assert (0 <= fillna 0 ((λ s, s / 30) <$> std series)) as Hsd.
  { destruct (std series) as [s|] eqn:Hs; simpl; [|lra].
    apply std_nonneg in Hs. lra. }
  assert (0 <= fillna 0 ((λ m, m / 30) <$> mean series)) as Hmu.
  { destruct (mean series) as [m|] eqn:Hm; simpl; [|lra].
    apply (mean_nonneg _ _ Hseries) in Hm. lra. }
  set (z := pick_z _ _).
  assert (0 < z) as Hz by apply pick_z_pos.
  assert (0 <= sqrt L) as HsL by apply sqrt_pos.
  set (sd := fillna 0 _) in *. set (mu := fillna 0 ((λ m, m / 30) <$> mean series)) in *.
  assert (0 <= z * sqrt L * sd) as Hss.
  { apply Rmult_le_pos; [apply Rmult_le_pos; lra|done]. }
  assert (0 <= mu * L) as HmL by (apply Rmult_le_pos; lra).
  split; [lra|].
  unfold nan_gt. rewrite bool_decide_eq_true. done.
Qed.

Lemma policy_with_default_lead_times_witness :
  ∃ rows,
    master_table three_prices three_skus None None None = Ok rows ∧
    ∀ r, r ∈ rows →
      (supplier r = "HELI" ∧ lead_time_days r = 90 ∨
       supplier r = "TVH" ∧ lead_time_days r = 45 ∨
       supplier r = "NACIONAL" ∧ lead_time_days r = 3) ∧
      OnHand r = 0 ∧ 0 <= EOQ r ∧
      ∃ ss rop,
        SS r = Some ss ∧ ROP r = Some rop ∧ SMIN r = Some rop ∧
        SMAX r = Some (rop + EOQ r) ∧
        0 <= ss <= rop ∧
        (BelowROP r = true ↔ 0 < rop).
Proof.
  apply (policy_with_default_lead_times three_prices three_skus None None).
  - apply (bool_decide_unpack _). vm_compute. exact I.
  - unfold three_skus. repeat constructor; simpl; lra.
Defined.

Lemma master_table_rows prices issues heli_set tvh_set lt_map_cfg master r :
  master_table prices issues heli_set tvh_set lt_map_cfg = Ok master →
  r ∈ master →
  ∃ avgprice_of kv,
    kv ∈ pv_rows (mens issues) ∧
    r = master_of (abc_table prices issues) avgprice_of
          (default ∅ heli_set) (default ∅ tvh_set) lt_map_cfg kv.
Proof.
  unfold master_table. destruct (reindex_prices _) as [f|e]; simpl; [|done].
  intros [= <-] Hr. apply list_elem_of_fmap in Hr as (kv & -> & Hkv).
  by exists f, kv.
Qed.

Lemma master_row_stock prices issues heli_set tvh_set lt_map_cfg master r :
  master_table prices issues heli_set tvh_set lt_map_cfg = Ok master →
  r ∈ master →
  OnHand r = 0 ∧ 0 <= EOQ r ∧
  SS r = (λ s, z_level r * s * fillna 0 ((λ s, s / 30) <$> monthly_std r))
           <$> np_sqrt (lead_time_days r) ∧
  ROP r = (λ ss, fillna 0 ((λ m, m / 30) <$> monthly_mean r) * lead_time_days r + ss)
            <$> SS r ∧
  SMIN r = ROP r ∧
  SMAX r = (λ rop, rop + EOQ r) <$> ROP r ∧
  BelowROP r = nan_gt (ROP r) 0.
Proof.
  intros Hm Hr. destruct (master_table_rows _ _ _ _ _ _ _ Hm Hr) as (f & kv & _ & ->).
  cbn [lead_time_days OnHand EOQ SS ROP SMIN SMAX BelowROP monthly_std monthly_mean
       z_level master_of].
  split; [done|]. split; [apply eoq_nonneg|]. done.
Qed.

(** With a lead-time table in the configuration, the lead time of a SKU is
    the entry of its supplier, or 15 days when the table has none.  A
    negative entry leaves SS, ROP, SMIN and SMAX undefined and the SKU is
    not below its reorder point; otherwise SS and ROP are defined. *)
Theorem configured_lead_times (prices : list price) (issues : list move)
    (heli_set tvh_set : option (gset string)) (m : gmap string Z) :
  NoDup (p_itemcode <$> prices) →
  m ≠ ∅ →
  ∃ rows,
    master_table prices issues heli_set tvh_set (Some m) = Ok rows ∧
    ∀ r, r ∈ rows →
      lead_time_days r = match m !! supplier r with Some v => IZR v | None => 15 end ∧
      (lead_time_days r < 0 →
       SS r = None ∧ ROP r = None ∧ SMIN r = None ∧ SMAX r = None ∧ BelowROP r = false) ∧
      (0 <= lead_time_days r → is_Some (SS r) ∧ is_Some (ROP r) ∧ is_Some (SMAX r)).
Proof.
  intros Hnd Hm.
  pose proof (master_table_ok prices issues heli_set tvh_set (Some m) Hnd) as Hok.
  eexists. split; [exact Hok|]. intros r Hr.
  destruct (master_supplier_values _ _ _ _ _ _ r Hok Hr) as [_ Hlead].
  destruct (master_row_stock _ _ _ _ _ _ r Hok Hr) as (_ & _ & HSS & HROP & HSMIN & HSMAX & HB).
  split; [|split].
  - rewrite Hlead. unfold resolve_lead_time. rewrite decide_False by done.
    by destruct (m !! supplier r).
  - intros Hneg. unfold np_sqrt in HSS. rewrite decide_True in HSS by done.
    simpl in HSS. rewrite HSS in HROP. simpl in HROP.
    rewrite HROP in HSMIN, HSMAX, HB. done.
  - intros Hpos. rewrite np_sqrt_nonneg in HSS by done. simpl in HSS.
    rewrite HSS in HROP. simpl in HROP. rewrite HROP in HSMAX. simpl in HSMAX.
    rewrite HSS, HROP, HSMAX. eauto.
Qed.

Lemma configured_lead_times_witness :
  ∃ rows,
    master_table three_prices three_skus None None (Some {[ "NACIONAL" := (-5)%Z ]})
    = Ok rows ∧
    ∀ r, r ∈ rows →
      lead_time_days r
      = match ({[ "NACIONAL" := (-5)%Z ]} : gmap string Z) !! supplier r with
        | Some v => IZR v | None => 15 end ∧
      (lead_time_days r < 0 →
       SS r = None ∧ ROP r = None ∧ SMIN r = None ∧ SMAX r = None ∧ BelowROP r = false) ∧
      (0 <= lead_time_days r → is_Some (SS r) ∧ is_Some (ROP r) ∧ is_Some (SMAX r)).
Proof.
  apply (configured_lead_times three_prices three_skus None None {[ "NACIONAL" := (-5)%Z ]}).
  - apply (bool_decide_unpack _). vm_compute. exact I.
  - apply insert_non_empty.
Defined.

(** The alert table holds, in the order of the master output, exactly the
    SKUs whose reorder point is defined and positive; the suggested order
    of each is its SMAX, that is ROP + EOQ, never less than the reorder
    point. *)
Theorem alerts_are_positive_reorder_points (prices : list price) (issues : list move)
    (heli_set tvh_set : option (gset string)) (lt_map_cfg : option (gmap string Z)) :
  NoDup (p_itemcode <$> prices) →
  ∃ out,
    run prices issues heli_set tvh_set lt_map_cfg = Ok out ∧
    al_master <$> tb_rows (alerts_out out) `sublist_of` tb_rows (master_out out) ∧
    (∀ r, r ∈ al_master <$> tb_rows (alerts_out out) ↔
          r ∈ tb_rows (master_out out) ∧ ∃ rop, ROP r = Some rop ∧ 0 < rop) ∧
    ∀ a, a ∈ tb_rows (alerts_out out) →
      ∃ rop, ROP (al_master a) = Some rop ∧ 0 < rop ∧
             SuggestedOrderQty a = Some (rop + EOQ (al_master a)) ∧
             SuggestedOrderQty a = SMAX (al_master a).
Proof.
  intros Hnd.
  pose proof (master_table_ok prices issues heli_set tvh_set lt_map_cfg Hnd) as Hok.
  destruct (run_ok _ _ _ _ _ _ Hok) as (out & Hrun & _ & Hrows & _ & _ & Hal & Hsug).
  exists out. split; [exact Hrun|].
  assert (∀ r, r ∈ tb_rows (master_out out) →
               OnHand r = 0 ∧ 0 <= EOQ r ∧
               SMAX r = (λ rop, rop + EOQ r) <$> ROP r ∧
               (BelowROP r = true ↔ ∃ rop, ROP r = Some rop ∧ 0 < rop)) as Hshape.
  { intros r Hr. rewrite Hrows, elem_of_stable_sort in Hr.
    destruct (master_row_stock _ _ _ _ _ _ r Hok Hr) as (HO & HE & _ & _ & _ & HSMAX & HB).
    split; [done|]. split; [done|]. split; [done|].
    rewrite HB. unfold nan_gt. destruct (ROP r) as [rop|].
    - rewrite bool_decide_eq_true. split; [eauto|]. by intros (? & [= <-] & ?).
    - split; [done|]. by intros (? & [=] & _). }
  split; [|split].
  - rewrite Hal. apply sublist_filter.
  - intros r. rewrite Hal, list_elem_of_filter. split.
    + intros [HB Hr]. split; [done|]. by apply (Hshape r Hr).
    + intros [Hr Hrop]. split; [|done]. by apply (Hshape r Hr).
  - intros a Ha.
    assert (al_master a ∈ al_master <$> tb_rows (alerts_out out)) as Hin
      by by apply list_elem_of_fmap_2.
    rewrite Hal, list_elem_of_filter in Hin. destruct Hin as [HB Hr].
    destruct (Hshape _ Hr) as (HO & HE & HSMAX & HBelow).
    apply HBelow in HB as (rop & Hrop & Hpos).
    exists rop. split; [done|]. split; [done|].
    rewrite (Hsug a Ha), HSMAX, Hrop, HO. simpl.
    rewrite clip_lower_id by lra. split; f_equal; lra.
Qed.

Lemma alerts_are_positive_reorder_points_witness :
  ∃ out,
    run three_prices three_skus None None None = Ok out ∧
    al_master <$> tb_rows (alerts_out out) `sublist_of` tb_rows (master_out out) ∧
    (∀ r, r ∈ al_master <$> tb_rows (alerts_out out) ↔
          r ∈ tb_rows (master_out out) ∧ ∃ rop, ROP r = Some rop ∧ 0 < rop) ∧
    ∀ a, a ∈ tb_rows (alerts_out out) →
      ∃ rop, ROP (al_master a) = Some rop ∧ 0 < rop ∧
             SuggestedOrderQty a = Some (rop + EOQ (al_master a)) ∧
             SuggestedOrderQty a = SMAX (al_master a).
Proof.
  apply (alerts_are_positive_reorder_points three_prices three_skus None None None).
  apply (bool_decide_unpack _). vm_compute. exact I.
Defined.

(** ** Order of the master output *)

Lemma ltb_lt a b : String.ltb a b = true ↔ OrderedTypeEx.String_as_OT.lt a b.
Proof.
  rewrite <- OrderedTypeEx.String_as_OT.cmp_lt.
  unfold String.ltb, OrderedTypeEx.String_as_OT.cmp.
  destruct (String.compare a b); split; congruence.
Qed.

Lemma ltb_trans a b c :
  String.ltb a b = true → String.ltb b c = true → String.ltb a c = true.
Proof.
  rewrite !ltb_lt. apply OrderedTypeEx.String_as_OT.lt_trans.
Qed.

Lemma ltb_irrefl a : String.ltb a a = false.
Proof.
  unfold String.ltb. pose proof (String.compare_antisym a a) as H.
  destruct (String.compare a a); done.
Qed.

Lemma ltb_total a b : a = b ∨ String.ltb a b = true ∨ String.ltb b a = true.
Proof.
  unfold String.ltb. pose proof (String.compare_antisym a b) as H.
  destruct (String.compare a b) eqn:Hc.
  - left. by apply String.compare_eq_iff.
  - right. by left.
  - right. right. rewrite (String.compare_antisym b a), Hc. done.
Qed.

Lemma ltb_asym a b : String.ltb a b = true → String.ltb b a = false.
Proof.
  intros Hab. destruct (String.ltb b a) eqn:Hba; [|done].
  pose proof (ltb_trans _ _ _ Hab Hba) as H. by rewrite ltb_irrefl in H.
Qed.

Lemma text_lt_trans a b c :
  text_lt a b = true → text_lt b c = true → text_lt a c = true.
Proof.
  destruct a as [a|], b as [b|], c as [c|]; simpl; try done. apply ltb_trans.
Qed.

Lemma text_lt_irrefl a : text_lt a a = false.
Proof. destruct a; simpl; [apply ltb_irrefl|done]. Qed.

Lemma text_lt_total a b : a = b ∨ text_lt a b = true ∨ text_lt b a = true.
Proof.
  destruct a as [a|], b as [b|]; simpl; try tauto.
  destruct (ltb_total a b) as [->|[?|?]]; tauto.
Qed.

Lemma text_lt_asym a b : text_lt a b = true → text_lt b a = false.
Proof.
  intros Hab. destruct (text_lt b a) eqn:Hba; [|done].
  pose proof (text_lt_trans _ _ _ Hab Hba) as H. by rewrite text_lt_irrefl in H.
Qed.

Lemma master_before_asym x y : master_before x y = true → master_before y x = false.
Proof.
  unfold master_before. intros H.
  apply orb_true_iff in H as [H|H].
  - rewrite (text_lt_asym _ _ H). rewrite bool_decide_eq_false_2; [done|].
    intros Heq. rewrite Heq, text_lt_irrefl in H. done.
  - apply andb_true_iff in H as [Heq H]. apply bool_decide_eq_true in Heq.
    rewrite Heq, text_lt_irrefl, bool_decide_eq_true_2 by done. simpl.
    apply orb_true_iff in H as [H|H].
    + rewrite (ltb_asym _ _ H). rewrite bool_decide_eq_false_2; [done|].
      intros Hx. rewrite Hx, ltb_irrefl in H. done.
    + apply andb_true_iff in H as [Hx H]. apply bool_decide_eq_true in Hx.
      apply bool_decide_eq_true in H.
      rewrite Hx, ltb_irrefl, bool_decide_eq_true_2 by done. simpl.
      apply bool_decide_eq_false. lra.
Qed.

Lemma master_not_before x y :
  master_before y x = false ↔
  text_lt (ABC x) (ABC y) = true ∨
  ABC x = ABC y ∧
  (String.ltb (XYZ x) (XYZ y) = true ∨ XYZ x = XYZ y ∧ annual_qty x >= annual_qty y).
Proof.
  unfold master_before. split.
  - intros H. apply orb_false_iff in H as [Hlt H].
    destruct (text_lt_total (ABC x) (ABC y)) as [Heq|[?|Hyx]]; [|by left|congruence].
    right. split; [done|].
    rewrite bool_decide_eq_true_2 in H by done. simpl in H.
    apply orb_false_iff in H as [Hx H].
    destruct (ltb_total (XYZ x) (XYZ y)) as [Hxe|[?|Hyx]]; [|by left|congruence].
    right. split; [done|].
    rewrite bool_decide_eq_true_2 in H by done. simpl in H.
    apply bool_decide_eq_false in H. lra.
  - intros [H|(Heq & H)].
    + rewrite (text_lt_asym _ _ H). rewrite bool_decide_eq_false_2; [done|].
      intros Heq. rewrite Heq, text_lt_irrefl in H. done.
    + rewrite Heq, text_lt_irrefl, bool_decide_eq_true_2 by done. simpl.
      destruct H as [H|(Hx & H)].
      * rewrite (ltb_asym _ _ H). rewrite bool_decide_eq_false_2; [done|].
        intros Hx. rewrite Hx, ltb_irrefl in H. done.
      * rewrite Hx, ltb_irrefl, bool_decide_eq_true_2 by done. simpl.
        apply bool_decide_eq_false. lra.
Qed.

Lemma master_not_before_trans x y z :
  master_before y x = false → master_before z y = false → master_before z x = false.
Proof.
  rewrite !master_not_before.
  intros [H1|(E1 & H1)] [H2|(E2 & H2)].
  - left. by eapply text_lt_trans.
  - left. by rewrite <- E2.
  - left. by rewrite E1.
  - right. split; [congruence|].
    destruct H1 as [H1|(X1 & H1)], H2 as [H2|(X2 & H2)].
    + left. by eapply ltb_trans.
    + left. by rewrite <- X2.
    + left. by rewrite X1.
    + right. split; [congruence|lra].
Qed.

(** The master output is the master table reordered, one row per SKU, by
    ABC label, then XYZ label, then annual quantity from high to low: of two
    rows, the earlier has the smaller ABC label, or the same one and the
    smaller XYZ label, or both the same and at least the annual quantity of
    the later. *)
Theorem master_out_order (prices : list price) (issues : list move)
    (heli_set tvh_set : option (gset string)) (lt_map_cfg : option (gmap string Z)) :
  NoDup (p_itemcode <$> prices) →
  ∃ out,
    run prices issues heli_set tvh_set lt_map_cfg = Ok out ∧
    NoDup (item_code <$> tb_rows (master_out out)) ∧
    (∀ c, c ∈ item_code <$> tb_rows (master_out out) ↔ c ∈ itemcode <$> issues) ∧
    ∀ i j ri rj,
      tb_rows (master_out out) !! i = Some ri →
      tb_rows (master_out out) !! j = Some rj →
      (i < j)%nat →
      text_lt (ABC ri) (ABC rj) = true ∨
      ABC ri = ABC rj ∧
      (String.ltb (XYZ ri) (XYZ rj) = true ∨
       XYZ ri = XYZ rj ∧ annual_qty ri >= annual_qty rj).
Proof.
  intros Hnd.
  pose proof (master_table_ok prices issues heli_set tvh_set lt_map_cfg Hnd) as Hok.
  destruct (run_ok _ _ _ _ _ _ Hok) as (out & Hrun & _ & Hrows & _).
  exists out. split; [exact Hrun|].
  assert (item_code <$> tb_rows (master_out out) ≡ₚ group_keys (itemcode <$> issues)) as Hperm.
  { rewrite Hrows, stable_sort_perm, master_of_item_code. by rewrite mens_keys. }
  split; [|split].
  - rewrite Hperm. apply NoDup_group_keys.
  - intros c. rewrite Hperm. apply elem_of_group_keys.
  - intros i j ri rj Hi Hj Hij. apply master_not_before.
    assert (StronglySorted (λ a b, master_before b a = false) (tb_rows (master_out out)))
      as Hs.
    { rewrite Hrows. apply Sorted_StronglySorted.
      - intros x y z. apply master_not_before_trans.
      - apply stable_sort_Sorted. apply master_before_asym. }
    by apply (StronglySorted_lookup_lt _ _ i j ri rj Hs).
Qed.

Lemma master_out_order_witness :
  ∃ out,
    run three_prices three_skus None None None = Ok out ∧
    NoDup (item_code <$> tb_rows (master_out out)) ∧
    (∀ c, c ∈ item_code <$> tb_rows (master_out out) ↔ c ∈ itemcode <$> three_skus) ∧
    ∀ i j ri rj,
      tb_rows (master_out out) !! i = Some ri →
      tb_rows (master_out out) !! j = Some rj →
      (i < j)%nat →
      text_lt (ABC ri) (ABC rj) = true ∨
      ABC ri = ABC rj ∧
      (String.ltb (XYZ ri) (XYZ rj) = true ∨
       XYZ ri = XYZ rj ∧ annual_qty ri >= annual_qty rj).
Proof.
  apply (master_out_order three_prices three_skus None None None).
  apply (bool_decide_unpack _). vm_compute. exact I.
Defined.

(** ** Clean codes out of the normalisers *)




















(** ** Supplier lists *)


Lemma tvh_rows_columns df : sf_columns (tvh_rows df) = sf_columns df.
Proof.
  unfold tvh_rows. case_bool_decide; [|done]. by destruct (filter _ _).
Qed.

Lemma elem_of_tvh_rows df row :
  row ∈ sf_rows (tvh_rows df) ↔
  row ∈ sf_rows df ∧
  ("nombre_extranjero" ∈ sf_columns df →
   (∃ row', row' ∈ sf_rows df ∧ marked_tvh row') → marked_tvh row).
Proof.
  unfold tvh_rows, marked_tvh. case_bool_decide as Hcol; [|tauto].
  destruct (filter _ (sf_rows df)) as [|x l] eqn:Hf.
  - split; [|tauto]. intros Hrow. split; [done|]. intros _ (row' & Hrow' & Hm).
    assert (row' ∈ filter (λ r, search_word "tvh" None (astype_str (sr_nombre_extranjero r)) = true)
                     (sf_rows df)) as Hin by by apply list_elem_of_filter.
    rewrite Hf in Hin. by apply elem_of_nil in Hin.
  - cbn [sf_rows]. rewrite <- Hf, list_elem_of_filter. split.
    + intros [Hm Hrow]. done.
    + intros [Hrow Hm]. split; [|done]. apply Hm; [done|].
      assert (x ∈ filter (λ r, search_word "tvh" None (astype_str (sr_nombre_extranjero r)) = true)
                    (sf_rows df)) as Hx by (rewrite Hf; left).
      apply list_elem_of_filter in Hx as [Hx1 Hx2]. by exists x.
Qed.



Example sample_supplier_sets :
  load_supplier_sets (Read heli_list) (Read tvh_list) = ({[ "SKU2" ]}, {[ "SKU1" ]}) ∧
  load_supplier_sets Unreadable NotGiven = (∅, ∅).
Proof. split; reflexivity. Qed.

(** ** Names and prices of the SKUs *)

Lemma head_omap_constant {A B} (f : A → option B) (l : list A) v :
  l ≠ [] → (∀ x, x ∈ l → f x = v) → head (omap f l) = v.
Proof.
  induction l as [|x l IH]; [done|]. intros _ Hf. cbn [omap list_omap].
  rewrite (Hf x) by left. destruct v as [y|]; [done|].
  destruct l as [|x' l']; [done|]. apply IH; [done|]. intros z Hz. apply Hf. by right.
Qed.

Lemma prepared_name prices issues k :
  k ∈ itemcode <$> issues →
  head (matching (prepare_prices prices issues) k) ≫= pr_itemname
  = match prices with
    | [] => Some ""
    | _ => head (filter (λ p, p_itemcode p = k) prices) ≫= p_itemname
    end.
Proof.
  intros Hk. destruct prices as [|p0 prices].
  - unfold prepare_prices, default_prices, matching.
    rewrite <- list_fmap_compose, (filter_fmap_comm _ (λ p, pr_itemcode p = k)). simpl.
    destruct (filter (λ x, x = k) (unique (itemcode <$> issues))) as [|y t] eqn:Hf.
    + exfalso. apply (filter_nil_not_elem_of _ _ k Hf); [done|]. by apply elem_of_unique.
    + done.
  - unfold prepare_prices, matching.
    rewrite (filter_fmap_comm _ (λ p, pr_itemcode p = k)). simpl.
    by destruct (filter _ (p0 :: prices)).
Qed.

Lemma aggregate_itemname prices issues r :
  NoDup (p_itemcode <$> prices) →
  r ∈ aggregate prices issues →
  a_itemname r = head (matching (prepare_prices prices issues) (a_itemcode r)) ≫= pr_itemname.
Proof.
  intros Hnd. rewrite aggregate_perm, elem_of_groupby_agg.
  rewrite merged_codes by done. intros [Hk ->]. simpl.
  set (k := a_itemcode r) in *.
  rewrite merge_left_join by by apply prepare_prices_codes.
  rewrite (filter_fmap_comm _ (λ x, c_itemcode x = k)). simpl.
  apply head_omap_constant.
  - apply list_elem_of_fmap in Hk as (m & Hm & Hin). intros Hnil.
    apply fmap_nil_inv in Hnil.
    apply (filter_nil_not_elem_of _ _ m Hnil); done.
  - intros x Hx. apply list_elem_of_fmap in Hx as (m & -> & Hm).
    apply list_elem_of_filter in Hm as [Hm _]. simpl. by rewrite Hm.
Qed.

(** Where a SKU gets its name and unit cost.  With an empty price table
    every SKU has the empty name and unit cost 1.0; with a price table that
    does not list the code, the SKU has no name and unit cost 1.0; in both
    cases its ACV is its annual quantity.  A listed SKU has the name of its
    price row and that row's price, coerced. *)
Theorem names_and_unit_costs (prices : list price) (issues : list move)
    (heli_set tvh_set : option (gset string)) (lt_map_cfg : option (gmap string Z)) :
  NoDup (p_itemcode <$> prices) →
  ∃ rows,
    master_table prices issues heli_set tvh_set lt_map_cfg = Ok rows ∧
    ∀ r, r ∈ rows →
      (prices = [] → item_name r = Some "" ∧ unit_cost r = 1 ∧ ACV r = annual_qty r) ∧
      (prices ≠ [] → item_code r ∉ p_itemcode <$> prices →
       item_name r = None ∧ unit_cost r = 1 ∧ ACV r = annual_qty r) ∧
      (∀ p, p ∈ prices → p_itemcode p = item_code r →
            item_name r = p_itemname p ∧ unit_cost r = coerce_price (p_avgprice p) ∧
            ACV r = annual_qty r * coerce_price (p_avgprice p)).
Proof.
  intros Hnd. eexists. split; [by apply master_table_ok|].
  intros r Hr. apply list_elem_of_fmap in Hr as ([k series] & -> & Hrow).
  cbn [item_name unit_cost ACV annual_qty item_code master_of fst snd].
  assert (k ∈ itemcode <$> issues) as Hk by by apply elem_of_mens_rows in Hrow as [? _].
  destruct (agg_lookup_found prices issues k Hnd Hk) as (a & Hlook & Ha & Hak).
  rewrite Hlook. cbn [mbind option_bind].
  rewrite (aggregate_itemname prices issues (ab_agg a) Hnd (abc_table_elem_agg _ _ _ Ha)).
  rewrite Hak, (prepared_name _ _ _ Hk), master_unit_cost. unfold unit_price.
  split; [|split].
  - intros ->. simpl. split; [done|]. split; [done|lra].
  - intros Hne Hnot. destruct prices as [|p0 prices]; [done|].
    destruct (filter (λ p, p_itemcode p = k) (p0 :: prices)) as [|q t] eqn:Hf.
    + simpl. split; [done|]. split; [done|lra].
    + exfalso. apply Hnot.
      assert (q ∈ filter (λ p, p_itemcode p = k) (p0 :: prices)) as Hq by (rewrite Hf; left).
      apply list_elem_of_filter in Hq as [<- Hq]. by apply list_elem_of_fmap_2.
  - intros p Hp Hcode.
    assert (filter (λ q, p_itemcode q = k) prices = [p]) as Hf.
    { destruct (filter_unique_key p_itemcode prices k Hnd) as [He|[q He]].
      - exfalso. apply (filter_nil_not_elem_of _ _ p He); done.
      - assert (p ∈ filter (λ q, p_itemcode q = k) prices) as Hin
          by by apply list_elem_of_filter.
        rewrite He in Hin. apply list_elem_of_singleton in Hin. by subst. }
    rewrite Hf. destruct prices as [|p0 prices]; [by apply elem_of_nil in Hp|]. done.
Qed.

Lemma names_and_unit_costs_witness :
  ∃ rows,
    master_table three_prices three_skus None None None = Ok rows ∧
    ∀ r, r ∈ rows →
      (three_prices = [] → item_name r = Some "" ∧ unit_cost r = 1 ∧ ACV r = annual_qty r) ∧
      (three_prices ≠ [] → item_code r ∉ p_itemcode <$> three_prices →
       item_name r = None ∧ unit_cost r = 1 ∧ ACV r = annual_qty r) ∧
      (∀ p, p ∈ three_prices → p_itemcode p = item_code r →
            item_name r = p_itemname p ∧ unit_cost r = coerce_price (p_avgprice p) ∧
            ACV r = annual_qty r * coerce_price (p_avgprice p)).
Proof.
  apply (names_and_unit_costs three_prices three_skus None None None).
  apply (bool_decide_unpack _). vm_compute. exact I.
Defined.

(** ** From the files to the classes *)











(** ** Column names *)

Lemma alnum_not_underscore c : is_alnum_char c = true → Ascii.eqb c "_" = false.
Proof. destruct c as [[] [] [] [] [] [] [] []]; done. Qed.

Lemma lower_char_slug c :
  is_alnum_char c = true ∨ c = "_"%char → is_slug_char (lower_char c) = true.
Proof.
  intros [H| ->]; [|done]. revert H. destruct c as [[] [] [] [] [] [] [] []]; done.
Qed.

Lemma lower_char_underscore c : Ascii.eqb (lower_char c) "_" = Ascii.eqb c "_".
Proof. destruct c as [[] [] [] [] [] [] [] []]; done. Qed.

Lemma lower_char_slug_id c : is_slug_char c = true → lower_char c = c.
Proof. destruct c as [[] [] [] [] [] [] [] []]; done. Qed.

Lemma slug_char_ascii c : is_slug_char c = true → is_ascii_char c = true.
Proof. destruct c as [[] [] [] [] [] [] [] []]; done. Qed.

Lemma slug_char_cases c :
  is_slug_char c = true → is_alnum_char c = true ∨ c = "_"%char.
Proof. destruct c as [[] [] [] [] [] [] [] []]; simpl; auto; done. Qed.

Lemma all_chars_impl (P Q : ascii → bool) s :
  (∀ c, P c = true → Q c = true) → all_chars P s = true → all_chars Q s = true.
Proof.
  intros HPQ. induction s as [|c s IH]; [done|]. simpl.
  rewrite !andb_true_iff. intros [Hc Hs]. auto.
Qed.

Lemma has_pair_cons x a r :
  has_pair x (String a r) = Ascii.eqb a x && starts_with x r || has_pair x r.
Proof. destruct r; simpl; [by rewrite andb_false_r|done]. Qed.

Lemma ends_with_cons x a r :
  ends_with x (String a r) = match r with EmptyString => Ascii.eqb a x | _ => ends_with x r end.
Proof. done. Qed.

Lemma sub_runs_chars b s : all_chars pre_slug_char (sub_runs b s) = true.
Proof.
  revert b. induction s as [|c s IH]; intros b; [done|]. simpl.
  destruct (is_alnum_char c) eqn:Hc.
  - simpl. unfold pre_slug_char at 1. by rewrite Hc, IH.
  - destruct b; [apply IH|]. simpl. by rewrite IH.
Qed.

Lemma sub_runs_head s : starts_with "_" (sub_runs true s) = false.
Proof.
  induction s as [|c s IH]; [done|]. simpl.
  destruct (is_alnum_char c) eqn:Hc; [|done]. simpl. by apply alnum_not_underscore.
Qed.

Lemma sub_runs_pair b s : has_pair "_" (sub_runs b s) = false.
Proof.
  revert b. induction s as [|c s IH]; intros b; [done|]. simpl.
  destruct (is_alnum_char c) eqn:Hc.
  - rewrite has_pair_cons, IH, (alnum_not_underscore c Hc). done.
  - destruct b; [apply IH|]. rewrite has_pair_cons, IH, sub_runs_head. done.
Qed.

Lemma lstrip_char_head x s : starts_with x (lstrip_char x s) = false.
Proof.
  induction s as [|c s IH]; [done|]. simpl.
  destruct (Ascii.eqb c x) eqn:Hc; [done|]. simpl. done.
Qed.

Lemma lstrip_char_chars P x s :
  all_chars P s = true → all_chars P (lstrip_char x s) = true.
Proof.
  induction s as [|c s IH]; [done|]. simpl. rewrite andb_true_iff. intros [Hc Hs].
  destruct (Ascii.eqb c x); [auto|]. simpl. by rewrite Hc, Hs.
Qed.

Lemma lstrip_char_pair x s :
  has_pair x s = false → has_pair x (lstrip_char x s) = false.
Proof.
  induction s as [|c s IH]; [done|]. rewrite has_pair_cons, orb_false_iff.
  intros [Hcs Hs]. simpl. destruct (Ascii.eqb c x) eqn:Hc; [auto|].
  by rewrite has_pair_cons, Hc, Hs.
Qed.

Lemma rstrip_char_cons x c s :
  rstrip_char x (String c s) = EmptyString ∨
  ∃ t, rstrip_char x (String c s) = String c t.
Proof.
  simpl. destruct (rstrip_char x s); [|eauto]. destruct (Ascii.eqb c x); eauto.
Qed.

Lemma rstrip_char_starts x y s :
  starts_with y (rstrip_char x s) = true → starts_with y s = true.
Proof.
  destruct s as [|c s]; [done|].
  destruct (rstrip_char_cons x c s) as [->|[t ->]]; done.
Qed.

Lemma rstrip_char_head x s :
  starts_with x s = false → starts_with x (rstrip_char x s) = false.
Proof.
  intros Hs. destruct (starts_with x (rstrip_char x s)) eqn:Hr; [|done].
  apply rstrip_char_starts in Hr. congruence.
Qed.

Lemma rstrip_char_tail x s : ends_with x (rstrip_char x s) = false.
Proof.
  induction s as [|c s IH]; [done|]. simpl.
  destruct (rstrip_char x s) as [|d t] eqn:Hr.
  - destruct (Ascii.eqb c x) eqn:Hc; [done|]. simpl. done.
  - rewrite ends_with_cons. done.
Qed.

Lemma rstrip_char_chars P x s :
  all_chars P s = true → all_chars P (rstrip_char x s) = true.
Proof.
  induction s as [|c s IH]; [done|]. simpl. rewrite andb_true_iff. intros [Hc Hs].
  specialize (IH Hs). destruct (rstrip_char x s) as [|d t].
  - destruct (Ascii.eqb c x); [done|]. simpl. by rewrite Hc.
  - change (all_chars P (String c (String d t))) with (P c && all_chars P (String d t)).
    by rewrite Hc, IH.
Qed.

Lemma rstrip_char_pair x s :
  has_pair x s = false → has_pair x (rstrip_char x s) = false.
Proof.
  induction s as [|c s IH]; [done|]. rewrite has_pair_cons, orb_false_iff.
  intros [Hcs Hs]. specialize (IH Hs). simpl.
  destruct (rstrip_char x s) as [|d t] eqn:Hr.
  - by destruct (Ascii.eqb c x).
  - rewrite has_pair_cons, IH, orb_false_r.
    destruct (Ascii.eqb c x); [|done]. simpl in *.
    destruct (starts_with x (String d t)) eqn:Hd; [|done].
    rewrite <- Hr in Hd. apply rstrip_char_starts in Hd. congruence.
Qed.

Lemma lower_str_chars s :
  all_chars pre_slug_char s = true → all_chars is_slug_char (lower_str s) = true.
Proof.
  induction s as [|c s IH]; [done|]. simpl. rewrite andb_true_iff. intros [Hc Hs].
  rewrite (IH Hs), andb_true_r. apply lower_char_slug.
  unfold pre_slug_char in Hc. apply orb_true_iff in Hc as [Hc|Hc]; [by left|].
  right. by apply Ascii.eqb_eq.
Qed.

Lemma lower_str_head s : starts_with "_" (lower_str s) = starts_with "_" s.
Proof. destruct s; simpl; [done|apply lower_char_underscore]. Qed.

Lemma lower_str_tail s : ends_with "_" (lower_str s) = ends_with "_" s.
Proof.
  induction s as [|c s IH]; [done|]. simpl lower_str. rewrite !ends_with_cons, IH.
  destruct s; simpl; [apply lower_char_underscore|done].
Qed.

Lemma lower_str_pair s : has_pair "_" (lower_str s) = has_pair "_" s.
Proof.
  induction s as [|c s IH]; [done|]. simpl lower_str.
  by rewrite !has_pair_cons, IH, lower_str_head, lower_char_underscore.
Qed.

Lemma slug_has_shape ascii_fold t : slug_shape (slug ascii_fold t).
Proof.
  unfold slug, slug_shape, strip_char.
  set (u := sub_runs false (ascii_fold t)).
  split; [|split; [|split]].
  - apply lower_str_chars, rstrip_char_chars, lstrip_char_chars, sub_runs_chars.
  - rewrite lower_str_head. apply rstrip_char_head, lstrip_char_head.
  - rewrite lower_str_tail. apply rstrip_char_tail.
  - rewrite lower_str_pair. apply rstrip_char_pair, lstrip_char_pair, sub_runs_pair.
Qed.

Lemma sub_runs_id b s :
  all_chars is_slug_char s = true → has_pair "_" s = false →
  (b = true → starts_with "_" s = false) → sub_runs b s = s.
Proof.
  revert b. induction s as [|c s IH]; intros b; [done|]. simpl all_chars.
  rewrite andb_true_iff, has_pair_cons, orb_false_iff. intros [Hc Hs] [Hcs Hp] Hb.
  simpl. destruct (slug_char_cases c Hc) as [Ha| ->].
  - rewrite Ha. f_equal. apply IH; done.
  - simpl in *. destruct b; [by specialize (Hb eq_refl)|].
    f_equal. apply IH; done.
Qed.

Lemma lstrip_char_id x s : starts_with x s = false → lstrip_char x s = s.
Proof. destruct s; simpl; [done|]. by intros ->. Qed.

Lemma rstrip_char_id x s : ends_with x s = false → rstrip_char x s = s.
Proof.
  induction s as [|c s IH]; [done|]. rewrite ends_with_cons. simpl.
  destruct s as [|d t].
  - simpl. by intros ->.
  - intros Hs. by rewrite (IH Hs).
Qed.

Lemma lower_str_id s : all_chars is_slug_char s = true → lower_str s = s.
Proof.
  induction s as [|c s IH]; [done|]. simpl. rewrite andb_true_iff. intros [Hc Hs].
  by rewrite (lower_char_slug_id c Hc), (IH Hs).
Qed.

Lemma slug_fixed ascii_fold s :
  (∀ u, all_chars is_ascii_char u = true → ascii_fold u = u) →
  slug_shape s → slug ascii_fold s = s.
Proof.
  intros Hfold (Hc & Hh & Ht & Hp). unfold slug, strip_char.
  rewrite Hfold by (eapply all_chars_impl; [apply slug_char_ascii|done]).
  rewrite sub_runs_id by done.
  rewrite lstrip_char_id, rstrip_char_id by done. by apply lower_str_id.
Qed.

(** Whatever the folding to ASCII does, a slug is made of digits,
    lower-case letters and underscores, with no underscore at its start or
    end and no two underscores in a row. *)
Theorem slug_output_shape (ascii_fold : string → string) (t : string) :
  let s := slug ascii_fold t in
  all_chars is_slug_char s = true ∧
  starts_with "_" s = false ∧
  ends_with "_" s = false ∧
  has_pair "_" s = false.
Proof. apply slug_has_shape. Qed.

(** The folding to ASCII leaves ASCII text as it is; so a name that has the
    shape of a slug is its own slug, and slug applied twice gives what slug
    gives once: the column names the normalisers look for are found
    again when a frame goes through slug a second time. *)
Theorem slug_idempotent (ascii_fold : string → string) :
  (∀ u, all_chars is_ascii_char u = true → ascii_fold u = u) →
  (∀ s, slug_shape s → slug ascii_fold s = s) ∧
  (∀ t, slug ascii_fold (slug ascii_fold t) = slug ascii_fold t) ∧
  Forall (λ c, slug ascii_fold c = c)
    [ "itemcode"; "itemname"; "avgprice"; "numero_de_articulo"; "codigo";
      "descripcion_del_articulo"; "precio_promedio"; "fecha"; "cantidad";
      "cantidad_de_articulos"; "qty_out"; "nombre_extranjero" ].
Proof.
  intros Hfold. split; [|split].
  - intros s. by apply slug_fixed.
  - intros t. apply slug_fixed; [done|]. apply slug_has_shape.
  - repeat constructor; apply slug_fixed; try done; repeat split; reflexivity.
Qed.

Lemma slug_idempotent_witness :
  (∀ s, slug_shape s → slug (λ u, u) s = s) ∧
  (∀ t, slug (λ u, u) (slug (λ u, u) t) = slug (λ u, u) t) ∧
  Forall (λ c, slug (λ u, u) c = c)
    [ "itemcode"; "itemname"; "avgprice"; "numero_de_articulo"; "codigo";
      "descripcion_del_articulo"; "precio_promedio"; "fecha"; "cantidad";
      "cantidad_de_articulos"; "qty_out"; "nombre_extranjero" ].
Proof. apply (slug_idempotent (λ u, u)). reflexivity. Defined.

Example slug_sample :
  slug (λ u, u) "  Numero de Articulo (SKU) " = "numero_de_articulo_sku" ∧
  slug (λ u, u) "__Qty--Out__" = "qty_out".
Proof. split; reflexivity. Qed.

(** ** The monthly series over the whole history *)

Lemma Rsum_single (f : Z → R) (cols : list Z) b0 c :
  NoDup cols → b0 ∈ cols → (∀ b, b ∈ cols → b ≠ b0 → f b = c) →
  Rsum (f <$> cols) = f b0 + (INR (length cols) - 1) * c.
Proof.
  induction 1 as [|x l Hx Hnd IH]; intros Hin Hf; [by apply elem_of_nil in Hin|].
  rewrite fmap_cons, Rsum_cons. change (length (x :: l)) with (S (length l)).
  rewrite S_INR. destruct (decide (x = b0)) as [->|Hne].
  - rewrite (Rsum_constant (f <$> l) c), length_fmap; [lra|].
    apply Forall_fmap, Forall_forall. intros b Hb. simpl. apply Hf; [by right|].
    intros ->. done.
  - apply elem_of_cons in Hin as [Hin|Hin]; [congruence|].
    rewrite IH; [|done|]. 2: { intros b Hb. apply Hf. by right. }
    rewrite (Hf x) by (done || left). lra.
Qed.

Lemma cv_of_single (f : Z → R) (cols : list Z) b0 :
  NoDup cols → b0 ∈ cols → (2 ≤ length cols)%nat →
  0 < f b0 → (∀ b, b ∈ cols → b ≠ b0 → f b = 0) →
  ∃ cv, cv_of (f <$> cols) = Some cv ∧ 1 < cv.
Proof.
  intros Hnd Hin Hn Hv Hf. rewrite cv_of_cases. unfold mean, std.
  rewrite length_fmap. rewrite decide_False by lia.
  destruct cols as [|c0 cols'] eqn:Hcols; [simpl in Hn; lia|].
  rewrite <- Hcols in *. clear Hcols c0 cols'.
  assert (f <$> cols ≠ []) as Hne.
  { intros Hnil. apply fmap_nil_inv in Hnil. rewrite Hnil in Hn. simpl in Hn. lia. }
  destruct (f <$> cols) as [|y ys] eqn:Hser; [done|]. rewrite <- Hser. clear Hne.
  set (n := INR (length cols)).
  assert (2 <= n) as Hn2.
  { unfold n. replace 2 with (INR 2) by (simpl; lra). by apply le_INR. }
  assert (Rsum (f <$> cols) = f b0) as Hsum.
  { rewrite (Rsum_single f cols b0 0) by done. lra. }
  rewrite Hsum. set (v := f b0) in *. set (mu := v / n).
  assert (0 < mu) as Hmu by (apply Rdiv_lt_0_compat; lra).
  rewrite decide_False by lra.
  rewrite <- list_fmap_compose.
  rewrite (Rsum_single ((λ x, (x - mu) * (x - mu)) ∘ f) cols b0 (mu * mu)); [|done|done|].
  2: { intros b Hb Hbne. simpl. rewrite (Hf b Hb Hbne). lra. }
  simpl. fold v. fold n.
  set (var := ((v - mu) * (v - mu) + (n - 1) * (mu * mu)) / (n - 1)).
  eexists. split; [done|].
  assert (mu * mu < var) as Hvar.
  { unfold var.
    replace (((v - mu) * (v - mu) + (n - 1) * (mu * mu)) / (n - 1))
      with ((v - mu) * (v - mu) / (n - 1) + mu * mu) by (field; lra).
    assert (0 < v - mu).
    { unfold mu. replace (v - v / n) with (v * ((n - 1) / n)) by (field; lra).
      apply Rmult_lt_0_compat; [done|]. apply Rdiv_lt_0_compat; lra. }
    assert (0 < (v - mu) * (v - mu) / (n - 1)).
    { apply Rdiv_lt_0_compat; [|lra]. by apply Rmult_lt_0_compat. }
    lra. }
  assert (mu < sqrt var) as Hsd.
  { rewrite <- (sqrt_square mu) at 1 by lra. apply sqrt_lt_1_alt. split; [nra|done]. }
  apply (Rmult_lt_reg_r mu); [done|]. unfold Rdiv. rewrite Rmult_assoc, Rinv_l by lra. lra.
Qed.

(** The months of the series are those of the whole history, the same for
    every SKU: the monthly mean of a SKU is its annual quantity over the
    number of months of the history, and its deviation is undefined exactly
    when the history has a single month.  With non-negative quantities a
    SKU whose demand falls in one month only is therefore always Z. *)
Theorem series_over_whole_history (prices : list price) (issues : list move)
    (heli_set tvh_set : option (gset string)) (lt_map_cfg : option (gmap string Z)) :
  NoDup (p_itemcode <$> prices) →
  Forall (λ m, 0 <= qty m) issues →
  ∃ rows,
    master_table prices issues heli_set tvh_set lt_map_cfg = Ok rows ∧
    ∀ r, r ∈ rows →
      let n := length (pv_columns (mens issues)) in
      (0 < n)%nat ∧
      monthly_mean r = Some (annual_qty r / INR n) ∧
      (monthly_std r = None ↔ n = 1%nat) ∧
      ((∃ b0, ∀ m, m ∈ issues → itemcode m = item_code r → month_index (mdate m) = b0) →
       XYZ r = "Z").
Proof.
  intros Hnd Hq. eexists. split; [by apply master_table_ok|].
  intros r Hr. apply list_elem_of_fmap in Hr as ([k series] & -> & Hrow).
  cbn [monthly_mean monthly_std annual_qty XYZ item_code master_of fst snd].
  pose proof (mens_row_length_pos _ _ _ Hrow) as Hlen.
  pose proof (elem_of_mens_rows issues k series) as Hchar.
  apply Hchar in Hrow as [Hk Hseries].
  assert (length series = length (pv_columns (mens issues))) as Hl
    by by rewrite Hseries, length_fmap.
  set (n := length (pv_columns (mens issues))) in *. rewrite Hl in Hlen.
  split; [done|]. split; [|split].
  - unfold mean. destruct series as [|x l]; [simpl in Hl; lia|]. by rewrite Hl.
  - unfold std. rewrite Hl. case_decide; split; try done; lia.
  - intros [b0 Hb0].
    set (g := filter (λ m, itemcode m = k) issues) in *.
    assert (∀ b, b ≠ b0 → month_total g b = 0) as Hzero.
    { intros b Hb. unfold month_total.
      destruct (filter (λ m, month_index (mdate m) = b) g) as [|m t] eqn:Hf; [done|].
      exfalso. assert (m ∈ filter (λ m, month_index (mdate m) = b) g) as Hm
        by (rewrite Hf; left).
      apply list_elem_of_filter in Hm as [Hmb Hm].
      apply list_elem_of_filter in Hm as [Hmk Hm].
      rewrite (Hb0 m Hm Hmk) in Hmb. congruence. }
    destruct (decide (n < 2)%nat) as [Hshort|Hlong].
    { rewrite cv_of_short; [done|]. lia. }
    destruct (decide (b0 ∈ pv_columns (mens issues))) as [Hin|Hout].
    + destruct (decide (month_total g b0 = 0)) as [H0|H0].
      * rewrite cv_of_idle; [done|]. rewrite Hseries.
        rewrite (Rsum_single (month_total g) _ b0 0); [lra|apply mens_columns_NoDup|done|].
        intros b _ Hb. by apply Hzero.
      * assert (0 <= month_total g b0) as Hpos.
        { apply month_total_nonneg, Forall_forall. intros m Hm.
          apply list_elem_of_filter in Hm as [_ Hm]. rewrite Forall_forall in Hq. by apply Hq. }
        destruct (cv_of_single (month_total g) (pv_columns (mens issues)) b0)
          as (cv & Hcv & Hgt); [apply mens_columns_NoDup|done|fold n; lia|lra| |].
        { intros b _ Hb. by apply Hzero. }
        assert (cv_of series = Some cv) as -> by (rewrite Hseries; exact Hcv).
        destruct (xyz_of_cv_spec (Some cv)) as [_ Hx].
        destruct (Hx cv eq_refl) as (_ & _ & HZ). apply HZ. lra.
    + rewrite cv_of_idle; [done|]. rewrite Hseries. apply Rsum_zero_fmap.
      intros b Hb. apply Hzero. intros ->. done.
Qed.

Lemma series_over_whole_history_witness :
  ∃ rows,
    master_table three_prices gap_sku None None None = Ok rows ∧
    ∀ r, r ∈ rows →
      let n := length (pv_columns (mens gap_sku)) in
      (0 < n)%nat ∧
      monthly_mean r = Some (annual_qty r / INR n) ∧
      (monthly_std r = None ↔ n = 1%nat) ∧
      ((∃ b0, ∀ m, m ∈ gap_sku → itemcode m = item_code r → month_index (mdate m) = b0) →
       XYZ r = "Z").
Proof.
  apply (series_over_whole_history three_prices gap_sku None None None).
  - apply (bool_decide_unpack _). vm_compute. exact I.
  - unfold gap_sku. repeat constructor; simpl; lra.
Defined.

(** ** The legacy movements file *)

(** When a guias file or a salidas file is given, the legacy issues file
    is not read: the program ends the same way whatever that file holds,
    even when it could not be normalised. *)
Theorem legacy_file_only_as_fallback (a : input_files) (legacy : option move_frame)
    (heli tvh : read_result supplier_frame) (lt_map_cfg : option (gmap string Z)) :
  is_Some (in_guias a) ∨ is_Some (in_salidas a) →
  let a' := {| in_prices := in_prices a; in_guias := in_guias a;
               in_salidas := in_salidas a; in_issues := legacy |} in
  load_inputs a' = load_inputs a ∧
  main_files a' heli tvh lt_map_cfg = main_files a heli tvh lt_map_cfg.
Proof.
  intros Hgiven a'.
  assert (load_inputs a' = load_inputs a) as Hload.
  { unfold load_inputs, a'. cbn [in_prices in_guias in_salidas in_issues].
    destruct (in_guias a), (in_salidas a); try done.
    destruct Hgiven as [[? [=]]|[? [=]]]. }
  split; [exact Hload|]. unfold main_files. by rewrite Hload.
Qed.

Lemma legacy_file_only_as_fallback_witness :
  let a' := {| in_prices := in_prices sample_files; in_guias := in_guias sample_files;
               in_salidas := in_salidas sample_files;
               in_issues := Some {| mf_columns := []; mf_rows := [] |} |} in
  load_inputs a' = load_inputs sample_files ∧
  main_files a' Unreadable NotGiven None = main_files sample_files Unreadable NotGiven None.
Proof.
  apply (legacy_file_only_as_fallback sample_files (Some {| mf_columns := []; mf_rows := [] |})
           Unreadable NotGiven None).
  left. eexists. reflexivity.
Defined.

(** ** The mark of the TVH list *)

Lemma lower_t_word c : lower_char c = "t"%char → is_word_char c = true.
Proof.
  destruct c as [[] [] [] [] [] [] [] []]; vm_compute; intros H;
    first [reflexivity | discriminate H].
Qed.

Lemma lower_str_tvh w :
  lower_str w = "tvh" ↔
  ∃ c1 c2 c3,
    w = String c1 (String c2 (String c3 EmptyString)) ∧
    lower_char c1 = "t"%char ∧ lower_char c2 = "v"%char ∧ lower_char c3 = "h"%char.
Proof.
  split.
  - destruct w as [|c1 [|c2 [|c3 [|c4 w]]]]; simpl; intros H; try discriminate H.
    injection H as H1 H2 H3. by exists c1, c2, c3.
  - intros (c1 & c2 & c3 & -> & H1 & H2 & H3). simpl. congruence.
Qed.

Lemma match_word_at_tvh prev s :
  match_word_at "tvh" prev s = true ↔
  ∃ w post, s = w +:+ post ∧ lower_str w = "tvh" ∧
            is_word prev = false ∧ is_word (head_char post) = false.
Proof.
  split.
  - destruct s as [|c1 [|c2 [|c3 rest]]]; unfold match_word_at; simpl;
      rewrite ?andb_false_r; try done;
      repeat match goal with
             | |- context [Ascii.eqb ?a ?b] => destruct (Ascii.eqb_spec a b)
             end; simpl; rewrite ?andb_false_r; try done.
    intros [Hb1 Hb2]%andb_true_iff.
    exists (String c1 (String c2 (String c3 EmptyString))), rest.
    split; [done|]. split; [simpl; congruence|].
    unfold word_boundary in *. simpl in Hb1, Hb2.
    rewrite lower_t_word in Hb1 by done. rewrite lower_h_word in Hb2 by done.
    split; [by apply xorb_true_r_inv|by apply xorb_true_l_inv].
  - intros (w & post & -> & Hw & Hprev & Hpost).
    apply lower_str_tvh in Hw as (c1 & c2 & c3 & -> & H1 & H2 & H3).
    unfold match_word_at. simpl. rewrite H1, H2, H3. simpl.
    change (EmptyString +:+ post) with post.
    unfold word_boundary. rewrite Hprev, Hpost. simpl.
    rewrite (lower_t_word c1), (lower_h_word c3) by done. done.
Qed.

Lemma search_word_tvh prev s :
  search_word "tvh" prev s = true ↔
  ∃ pre w post,
    s = pre +:+ w +:+ post ∧ lower_str w = "tvh" ∧
    is_word (last_char prev pre) = false ∧ is_word (head_char post) = false.
Proof.
  revert prev. induction s as [|c s IH]; intros prev.
  - simpl. rewrite orb_false_r, match_word_at_tvh. split.
    + intros (w & post & Hs & Hw & Hp & Hq). by exists EmptyString, w, post.
    + intros (pre & w & post & Hs & Hw & Hp & Hq).
      destruct pre; [|discriminate Hs]. by exists w, post.
  - simpl. rewrite orb_true_iff, match_word_at_tvh, IH. split.
    + intros [(w & post & Hs & Hw & Hp & Hq)|(pre & w & post & Hs & Hw & Hp & Hq)].
      * by exists EmptyString, w, post.
      * exists (String c pre), w, post. simpl. by rewrite Hs.
    + intros (pre & w & post & Hs & Hw & Hp & Hq). destruct pre as [|c' pre].
      * left. by exists w, post.
      * right. simpl in Hs. injection Hs as -> ->. by exists pre, w, post.
Qed.

(** A row of the TVH list is marked exactly when its foreign name holds
    tvh as a whole word, in any case; a row without a foreign name is not
    marked, and neither is one where tvh is part of a longer word.  The rows
    that count are the marked ones, or all rows when the list has no such
    column or no marked row, so that the set is never emptied by the mark. *)
Theorem tvh_mark_is_whole_word (df : supplier_frame) :
  (∀ row, marked_tvh row ↔ has_whole_word "tvh" (astype_str (sr_nombre_extranjero row))) ∧
  (∀ row, sr_nombre_extranjero row = None → ¬ marked_tvh row) ∧
  ¬ marked_tvh {| sr_itemcode := Some "X"; sr_nombre_extranjero := Some "TVHX" |} ∧
  marked_tvh {| sr_itemcode := Some "X"; sr_nombre_extranjero := Some "Filter tvh-12" |} ∧
  sf_columns (tvh_rows df) = sf_columns df ∧
  (∀ row, row ∈ sf_rows (tvh_rows df) → row ∈ sf_rows df) ∧
  (sf_rows df ≠ [] → sf_rows (tvh_rows df) ≠ []) ∧
  (("nombre_extranjero" ∉ sf_columns df) ∨ (∀ row, row ∈ sf_rows df → ¬ marked_tvh row) →
   tvh_rows df = df).
Proof.
  split; [|split; [|split; [|split; [|split; [|split; [|split]]]]]].
  - intros row. unfold marked_tvh. apply search_word_tvh.
  - intros row Hn. unfold marked_tvh. rewrite Hn. vm_compute. discriminate.
  - unfold marked_tvh. vm_compute. discriminate.
  - unfold marked_tvh. vm_compute. reflexivity.
  - apply tvh_rows_columns.
  - intros row Hrow. by apply elem_of_tvh_rows in Hrow as [? _].
  - intros Hne. unfold tvh_rows. case_bool_decide; [|done].
    destruct (filter _ (sf_rows df)) eqn:Hf; [done|]. simpl. done.
  - intros [Hcol|Hnone]; unfold tvh_rows.
    + by rewrite bool_decide_eq_false_2.
    + case_bool_decide; [|done].
      destruct (filter _ (sf_rows df)) as [|x l] eqn:Hf; [done|]. exfalso.
      assert (x ∈ filter (λ r, search_word "tvh" None (astype_str (sr_nombre_extranjero r)) = true)
                    (sf_rows df)) as Hx by (rewrite Hf; left).
      apply list_elem_of_filter in Hx as [Hm Hx]. by apply (Hnone x Hx).
Qed.

(** ** What each input can change *)

(** The demand statistics of a SKU (monthly mean and deviation, annual
    quantity, XYZ class) depend on the movements only: they are the same
    under any two price tables, supplier sets and lead-time tables.  The
    supplier sets and the lead-time table change nothing but the lead time
    and what is computed from it: name, ABC class, unit cost, ACV, service
    level and EOQ are the same under the same prices. *)
Theorem what_each_input_changes (prices prices' : list price) (issues : list move)
    (heli_set tvh_set heli_set' tvh_set' : option (gset string))
    (lt_map_cfg lt_map_cfg' : option (gmap string Z)) :
  NoDup (p_itemcode <$> prices) →
  NoDup (p_itemcode <$> prices') →
  ∃ rows rows',
    master_table prices issues heli_set tvh_set lt_map_cfg = Ok rows ∧
    master_table prices' issues heli_set' tvh_set' lt_map_cfg' = Ok rows' ∧
    Forall2 (λ r r',
               item_code r = item_code r' ∧ monthly_mean r = monthly_mean r' ∧
               monthly_std r = monthly_std r' ∧ annual_qty r = annual_qty r' ∧
               XYZ r = XYZ r' ∧ OnHand r = OnHand r' ∧
               (prices = prices' →
                item_name r = item_name r' ∧ ABC r = ABC r' ∧
                unit_cost r = unit_cost r' ∧ ACV r = ACV r' ∧
                z_level r = z_level r' ∧ EOQ r = EOQ r'))
            rows rows'.
Proof.
  intros Hnd Hnd'. eexists _, _.
  split; [by apply master_table_ok|]. split; [by apply master_table_ok|].
  apply Forall2_fmap, Forall_Forall2_diag, Forall_forall. intros kv _.
  cbn [item_code monthly_mean monthly_std annual_qty XYZ OnHand master_of].
  repeat (split; [reflexivity|]). intros <-. done.
Qed.

Lemma what_each_input_changes_witness :
  ∃ rows rows',
    master_table three_prices three_skus None None None = Ok rows ∧
    master_table [] three_skus (Some {[ "SKU1" ]}) None (Some {[ "HELI" := 10%Z ]}) = Ok rows' ∧
    Forall2 (λ r r',
               item_code r = item_code r' ∧ monthly_mean r = monthly_mean r' ∧
               monthly_std r = monthly_std r' ∧ annual_qty r = annual_qty r' ∧
               XYZ r = XYZ r' ∧ OnHand r = OnHand r' ∧
               (three_prices = [] →
                item_name r = item_name r' ∧ ABC r = ABC r' ∧
                unit_cost r = unit_cost r' ∧ ACV r = ACV r' ∧
                z_level r = z_level r' ∧ EOQ r = EOQ r'))
            rows rows'.
Proof.
  apply (what_each_input_changes three_prices [] three_skus None None (Some {[ "SKU1" ]}) None
           None (Some {[ "HELI" := 10%Z ]})).
  - apply (bool_decide_unpack _). vm_compute. exact I.
  - constructor.
Defined.

(** ** Who is alerted *)

Lemma Rsum_zero_inv l : Forall (λ x, 0 <= x) l → Rsum l = 0 → Forall (λ x, x = 0) l.
Proof.
  induction 1 as [|x l Hx Hl IH]; [constructor|]. rewrite Rsum_cons. intros Hs.
  pose proof (Rsum_nonneg l Hl) as Hn.
  constructor; [lra|]. apply IH. lra.
Qed.

Lemma std_of_zeros l s : Forall (λ x, x = 0) l → std l = Some s → s = 0.
Proof.
  intros Hz. unfold std. case_decide; [done|]. intros [= <-].
  rewrite (Rsum_zero l Hz).
  rewrite Rsum_zero_fmap.
  - unfold Rdiv. rewrite Rmult_0_l. apply sqrt_0.
  - intros x Hx. rewrite Forall_forall in Hz. rewrite (Hz x Hx).
    unfold Rdiv. rewrite Rmult_0_l. lra.
Qed.

(** With the default lead times and non-negative quantities, on-hand
    stock being taken as 0, the SKUs in the alert table are exactly those
    with a positive annual quantity: a SKU that moved is always alerted,
    with a positive suggested order, and one that never moved never is. *)
Theorem alerts_are_the_moving_skus (prices : list price) (issues : list move)
    (heli_set tvh_set : option (gset string)) :
  NoDup (p_itemcode <$> prices) →
  Forall (λ m, 0 <= qty m) issues →
  ∃ out,
    run prices issues heli_set tvh_set None = Ok out ∧
    (∀ r, r ∈ tb_rows (master_out out) →
          (r ∈ al_master <$> tb_rows (alerts_out out) ↔ 0 < annual_qty r)) ∧
    ∀ a, a ∈ tb_rows (alerts_out out) →
         ∃ q, SuggestedOrderQty a = Some q ∧ 0 < q.
Proof.
  intros Hnd Hq.
  pose proof (master_table_ok prices issues heli_set tvh_set None Hnd) as Hok.
  destruct (run_ok _ _ _ _ _ _ Hok) as (out & Hrun & _ & Hrows & _ & _ & Hal & Hsug).
  exists out. split; [exact Hrun|].
  assert (∀ r, r ∈ tb_rows (master_out out) →
               OnHand r = 0 ∧ 0 <= EOQ r ∧
               ∃ rop, ROP r = Some rop ∧ SMAX r = Some (rop + EOQ r) ∧
                      BelowROP r = bool_decide (0 < rop) ∧
                      (0 < rop ↔ 0 < annual_qty r)) as Hshape.
  { intros r Hr. rewrite Hrows, elem_of_stable_sort in Hr.
    destruct (master_supplier_values _ _ _ _ _ _ r Hok Hr) as [Hsup Hlead].
    assert (0 < lead_time_days r) as HL.
    { rewrite Hlead. unfold resolve_lead_time. rewrite lt_map_default_lookup.
      rewrite !elem_of_cons in Hsup.
      destruct Hsup as [->|[->|[->|Hsup]]]; [| | |by apply elem_of_nil in Hsup];
        simpl; lra. }
    apply list_elem_of_fmap in Hr as ([k series] & -> & Hrow).
    pose proof (mens_series_nonneg _ _ _ Hq Hrow) as Hseries.
    pose proof (mens_row_length_pos _ _ _ Hrow) as Hlen.
    revert HL. clear Hlead Hsup.
    cbn [lead_time_days OnHand EOQ SS ROP SMIN SMAX BelowROP annual_qty master_of fst snd].
    set (L := resolve_lead_time None _). intros HL.
    split; [done|]. split; [apply eoq_nonneg|].
    rewrite (np_sqrt_nonneg L) by lra. cbn [fmap option_fmap option_map].
    eexists. split; [done|]. split; [done|]. split; [done|].
    set (z := pick_z _ _). assert (0 < z) as Hz by apply pick_z_pos.
    assert (0 < sqrt L) as HsL by by apply sqrt_lt_R0.
    assert (0 < INR (length series)) as Hn by by apply lt_0_INR.
    assert (mean series = Some (Rsum series / INR (length series))) as Hmean.
    { unfold mean. destruct series; [simpl in Hlen; lia|done]. }
    rewrite Hmean. cbn [fmap option_fmap option_map fillna default]. cbv [Datatypes.id].
    pose proof (Rsum_nonneg _ Hseries) as Hsum.
    assert (0 <= fillna 0 ((λ s, s / 30) <$> std series)) as Hsd.
    { destruct (std series) as [s|] eqn:Hs; simpl; [|lra].
      apply std_nonneg in Hs. lra. }
    assert (0 <= z * sqrt L * fillna 0 ((λ s, s / 30) <$> std series)) as Hss.
    { apply Rmult_le_pos; [|done]. apply Rmult_le_pos; lra. }
    split.
    - intros Hrop. destruct (decide (0 < Rsum series)) as [|Hnot]; [done|]. exfalso.
      assert (Rsum series = 0) as H0 by lra.
      pose proof (Rsum_zero_inv _ Hseries H0) as Hzeros.
      assert (fillna 0 ((λ s, s / 30) <$> std series) = 0) as Hsd0.
      { destruct (std series) as [s|] eqn:Hs; simpl; [|done].
        rewrite (std_of_zeros _ _ Hzeros Hs). lra. }
      rewrite Hsd0, H0 in Hrop. unfold Rdiv in Hrop.
      rewrite !Rmult_0_l, Rmult_0_r in Hrop. lra.
    - intros Hpos.
      assert (0 < Rsum series / INR (length series) / 30 * L).
      { apply Rmult_lt_0_compat; [|done]. apply Rdiv_lt_0_compat; [|lra].
        by apply Rdiv_lt_0_compat. }
      lra. }
  split.
  - intros r Hr. destruct (Hshape r Hr) as (_ & _ & rop & _ & _ & HB & Hiff).
    rewrite Hal, list_elem_of_filter, HB, bool_decide_eq_true. tauto.
  - intros a Ha.
    assert (al_master a ∈ al_master <$> tb_rows (alerts_out out)) as Hin
      by by apply list_elem_of_fmap_2.
    rewrite Hal, list_elem_of_filter in Hin. destruct Hin as [HB Hr].
    destruct (Hshape _ Hr) as (HO & HE & rop & Hrop & HSMAX & HB' & _).
    rewrite HB', bool_decide_eq_true in HB.
    rewrite (Hsug a Ha), HSMAX, HO. simpl. eexists. split; [reflexivity|].
    rewrite clip_lower_id by lra. lra.
Qed.

Lemma alerts_are_the_moving_skus_witness :
  ∃ out,
    run three_prices three_skus None None None = Ok out ∧
    (∀ r, r ∈ tb_rows (master_out out) →
          (r ∈ al_master <$> tb_rows (alerts_out out) ↔ 0 < annual_qty r)) ∧
    ∀ a, a ∈ tb_rows (alerts_out out) →
         ∃ q, SuggestedOrderQty a = Some q ∧ 0 < q.
Proof.
  apply (alerts_are_the_moving_skus three_prices three_skus None None).
  - apply (bool_decide_unpack _). vm_compute. exact I.
  - unfold three_skus. repeat constructor; simpl; lra.
Defined.
